(** * rd-compare: the differential harness of [compare_versions.py]

    A shallow embedding of the test harness that runs one closure against
    two RedisDict versions sharing one Redis database, records the result,
    the exception and the final state of each run, and compares the two
    records with DeepDiff.

    The Redis database is a finite map from key names to stored strings.
    Code that talks to it is written in a small state-and-exception monad
    [M]: a computation takes the database and gives back either a value or
    a raised exception, together with the database it leaves behind. *)

From stdpp Require Import gmap strings list fin_maps sorting.
From Stdlib Require Import ZArith Ascii.

Open Scope string_scope.
Open Scope list_scope.

(** ** Python values *)

(** The values a closure returns, a RedisDict reports and an exception
    carries. A dict is kept as its list of items, keys without repeats. *)
#[local] Unset Elimination Schemes.
Inductive pyval : Type :=
  | PNone
  | PInt (z : Z)
  | PStr (s : string)
  | PList (items : list pyval)
  | PDict (items : list (string * pyval)).
#[local] Set Elimination Schemes.

Abbreviation pydict := (list (string * pyval)).

(** [d.keys()] *)
Definition keys (d : pydict) : list string := d.*1.

(** [d[k]], [None] standing for a missing key. *)
Fixpoint dict_get (k : string) (d : pydict) : option pyval :=
  match d with
  | [] => None
  | (k', v) :: d' => if decide (k' = k) then Some v else dict_get k d'
  end.

(** An exception object: its identity, its class, the classes its class
    derives from, what reading the attribute [message] gives ([None] when
    the attribute is missing) and the instance dictionary [__dict__]. *)
Record exn : Type := Exn {
  exn_id : nat;
  exn_class : string;
  exn_bases : list string;
  exn_message : option pyval;
  exn_dict : pydict
}.

(** [isinstance(e, cls)]: [cls] is the class of [e] or one it derives
    from. *)
Definition isinstance (e : exn) (cls : string) : bool :=
  bool_decide (cls ∈ exn_class e :: exn_bases e).

(** What [except Exception] tests. *)
Definition exn_is_Exception (e : exn) : bool := isinstance e "Exception".
Global Arguments exn_is_Exception : simpl never.

(** The exceptions the harness and the interpreter raise themselves, with
    the base classes they have in Python 2. *)
Definition AttributeError (msg : string) : exn :=
  Exn 0 "AttributeError"
    ["StandardError"; "Exception"; "BaseException"; "object"]
    (Some (PStr msg)) [].
Definition AssertionError (msg : string) : exn :=
  Exn 0 "AssertionError"
    ["StandardError"; "Exception"; "BaseException"; "object"]
    (Some (PStr msg)) [].
Definition SkipTest (msg : string) : exn :=
  Exn 0 "SkipTest" ["Exception"; "BaseException"; "object"]
    (Some (PStr msg)) [].

(** ** The database and the monad *)

Abbreviation store := (gmap string string).

Inductive res (A : Type) : Type :=
  | Ok (a : A)
  | Raise (e : exn).
Arguments Ok {A} a.
Arguments Raise {A} e.

Definition M (A : Type) : Type := store → res A * store.

Definition ret {A} (a : A) : M A := λ s, (Ok a, s).
Definition raise {A} (e : exn) : M A := λ s, (Raise e, s).
Definition bind {A B} (m : M A) (k : A → M B) : M B :=
  λ s, match m s with
       | (Ok a, s') => k a s'
       | (Raise e, s') => (Raise e, s')
       end.

Notation "x <- c ;; k" := (bind c (λ x, k))
  (at level 100, c at next level, right associativity).
Notation "c ;;; k" := (bind c (λ _, k))
  (at level 100, right associativity).

(** [try: body  except Exception as e: handler(e)]: an exception whose
    class does not derive from [Exception] passes through. *)
Definition try_except_Exception {A} (body : M A) (handler : exn → M A) : M A :=
  λ s, match body s with
       | (Ok a, s') => (Ok a, s')
       | (Raise e, s') =>
           if exn_is_Exception e then handler e s' else (Raise e, s')
       end.

(** [try: body  finally: cleanup]: the cleanup block runs on every way out
    of the body; an exception of the cleanup block replaces the pending one,
    otherwise the pending one is raised again. The values of both blocks are
    kept, as the local variables they assign are read after the statement. *)
Definition try_finally {A B} (body : M A) (cleanup : M B) : M (A * B) :=
  λ s, let '(r, s1) := body s in
       match cleanup s1 with
       | (Raise e', s2) => (Raise e', s2)
       | (Ok b, s2) =>
           match r with
           | Ok a => (Ok (a, b), s2)
           | Raise e => (Raise e, s2)
           end
       end.

(** ** Redis: key patterns, SCAN and DEL *)

(** Glob matching of a key against a pattern: [*] stands for any run of
    characters, [?] for one character, anything else for itself. The
    patterns of the harness are a namespace followed by [*]; the bracket
    classes and backslash escapes of Redis occur neither in [rd_compare_*]
    nor in the two namespaces and are left out: for a pattern that holds
    [[] or [\], Redis reads a class or an escape where this function reads
    the character itself. What a property says about the keys a pattern
    matches is therefore stated for [literal] patterns, or for the fixed
    prefix [rd_compare_]. *)
Fixpoint glob_match (pattern key : string) {struct pattern} : bool :=
  match pattern with
  | "" => bool_decide (key = "")
  | String c p =>
      if Ascii.eqb c "*" then
        (fix star (k : string) : bool :=
           glob_match p k
           || match k with "" => false | String _ k' => star k' end) key
      else
        match key with
        | "" => false
        | String d k =>
            (Ascii.eqb c "?" || Ascii.eqb c d) && glob_match p k
        end
  end.

(** [redisdb.scan_iter(pattern)]: the keys of the database that match. *)
Definition scan_iter (pattern : string) (s : store) : list string :=
  filter (λ k, glob_match pattern k) (map_to_list s).*1.

(** [redisdb.delete(key)] *)
Definition redis_delete (key : string) : M unit :=
  λ s, (Ok (), delete key s).

(** [for key in keys: redisdb.delete(key)] *)
Fixpoint delete_each (ks : list string) : M unit :=
  match ks with
  | [] => ret ()
  | key :: ks' => redis_delete key ;;; delete_each ks'
  end.

(** [clear_test_namespace]: delete what [scan_iter('rd_compare_*')] gives.
    The pipeline the source opens around the loop is never written to: the
    deletions go to [redisdb] one by one. *)
Definition clear_test_namespace : M unit :=
  λ s, delete_each (scan_iter "rd_compare_*" s) s.

(** ** Strings as Python slices them *)

(** [key[n:]] *)
Fixpoint slice_from (n : nat) (key : string) : string :=
  match n, key with
  | O, _ => key
  | S n', String _ k => slice_from n' k
  | S _, "" => ""
  end.

(** [s.split(sep)] for a one-character separator: the pieces between the
    separators, always at least one piece. *)
Fixpoint split (sep : ascii) (s : string) : list string :=
  match s with
  | "" => [""]
  | String c s' =>
      if decide (c = sep) then "" :: split sep s'
      else match split sep s' with
           | piece :: rest => String c piece :: rest
           | [] => [String c ""]
           end
  end.

(** [sorted(l)] on strings. *)
Definition sorted (l : list string) : list string := merge_sort String.le l.

(** ** The objects under test *)

(** A RedisDict instance as the harness uses it: its [namespace], the names
    [hasattr] finds on it, its [to_dict()], its item assignment
    [rd[key] = value] and its item access [rd[key]]. The versions under test
    are loaded from outside, so their methods are arbitrary computations on
    the database. *)
Record RedisDict : Type := {
  namespace : string;
  attributes : list string;
  to_dict : M pydict;
  setitem : string → pyval → M unit;
  getitem : string → M pyval
}.

(** [hasattr(rd, func)] *)
Definition hasattr (rd : RedisDict) (func : string) : bool :=
  bool_decide (func ∈ attributes rd).

(** The test case object: [self.d1] and [self.d2]; [self.redisdb] is the
    database the monad threads. *)
Record TestCase : Type := {
  d1 : RedisDict;
  d2 : RedisDict
}.

(** A closure takes a RedisDict and returns a value, or raises. *)
Abbreviation closure := (RedisDict → M pyval).

(** [{'object': e, 'message': e.message}] *)
Record captured : Type := {
  object : exn;
  message : pyval
}.

(** [{'result': result, 'exception': exc, 'state': redis_state}] *)
Record outcome : Type := {
  result : pyval;
  exception : option captured;
  state : pydict
}.

(** ** [run_closure] *)

(** [e.message]: reading a missing attribute raises [AttributeError]. *)
Definition getattr_message (e : exn) : M pyval :=
  match exn_message e with
  | Some m => ret m
  | None => raise (AttributeError "message")
  end.

(** [len(rd.namespace.split(':')[0]) + 1] *)
Definition to_rm (rd : RedisDict) : nat :=
  String.length (hd "" (split ":"%char (namespace rd))) + 1.

(** [[key[to_rm:] for key in self.redisdb.scan_iter('{}*'.format(rd.namespace))]] *)
Definition raw_keys (rd : RedisDict) (s : store) : list string :=
  slice_from (to_rm rd) <$> scan_iter (namespace rd +:+ "*") s.

(** [self.assertEqual(first, second)] on lists of strings. *)
Definition assertEqual (first second : list string) : M unit :=
  if decide (first = second) then ret ()
  else raise (AssertionError "Lists differ").

(** The [try] block with its [except] clause: the pair [(result, exc)]. *)
Definition run_script (script : closure) (rd : RedisDict)
    : M (pyval * option captured) :=
  try_except_Exception
    (r <- script rd ;; ret (r, None))
    (λ e, m <- getattr_message e ;;
          ret (PNone, Some {| object := e; message := m |})).

(** The [finally] block: read the state, check it against the raw keys,
    clean up. Its value is [redis_state]. *)
Definition check_and_cleanup (rd : RedisDict) : M pydict :=
  redis_state <- to_dict rd ;;
  (λ s, assertEqual (sorted (raw_keys rd s)) (sorted (keys redis_state)) s) ;;;
  clear_test_namespace ;;;
  ret redis_state.

Definition run_closure (script : closure) (rd : RedisDict) : M outcome :=
  captured_state <- try_finally (run_script script rd) (check_and_cleanup rd) ;;
  let '((result, exc), redis_state) := captured_state in
  ret {| result := result; exception := exc; state := redis_state |}.

(** [tearDown] *)
Definition tearDown (self : TestCase) : M unit := clear_test_namespace.

(** ** [requireFunctions] *)

(** The [repr] of a [str] in Python 2: single quotes, or double quotes when
    the string holds a single quote and no double one; the quote and the
    backslash are escaped, tab, newline and carriage return are written
    [\t], [\n], [\r], and any other character outside the printable
    ASCII range as [\x] and two hexadecimal digits. *)
Definition hex_digit (n : nat) : ascii :=
  nth n ["0"; "1"; "2"; "3"; "4"; "5"; "6"; "7"; "8"; "9";
         "a"; "b"; "c"; "d"; "e"; "f"]%char "0"%char.

Definition repr_char (quote c : ascii) : string :=
  if Ascii.eqb c quote || Ascii.eqb c "\" then String "\" (String c "")
  else if Ascii.eqb c "009" then "\t"
  else if Ascii.eqb c "010" then "\n"
  else if Ascii.eqb c "013" then "\r"
  else if ((nat_of_ascii c <? 32) || (127 <=? nat_of_ascii c))%nat then
    String "\" (String "x" (String (hex_digit (nat_of_ascii c / 16))
                             (String (hex_digit (nat_of_ascii c mod 16)) "")))
  else String c "".

Fixpoint has_char (c : ascii) (s : string) : bool :=
  match s with
  | "" => false
  | String d s' => Ascii.eqb d c || has_char c s'
  end.

Fixpoint repr_chars (quote : ascii) (s : string) : string :=
  match s with
  | "" => ""
  | String c s' => repr_char quote c +:+ repr_chars quote s'
  end.

Definition repr_str (s : string) : string :=
  let quote : ascii :=
    if has_char "'" s && negb (has_char "034" s) then "034"%char
    else "'"%char in
  String quote (repr_chars quote s) +:+ String quote "".

(** The [repr] of a tuple of strings, as [format] prints it. *)
Definition repr_tuple (fs : list string) : string :=
  match fs with
  | [] => "()"
  | [f] => "(" +:+ repr_str f +:+ ",)"
  | _ => "(" +:+ String.concat ", " (repr_str <$> fs) +:+ ")"
  end.

(** [self.skipTest(reason)] raises [SkipTest]. *)
Definition skipTest {A} (reason : string) : M A := raise (SkipTest reason).

Definition requireFunctions (functions : list string)
    (testcase : TestCase → M unit) : TestCase → M unit :=
  λ self,
    if existsb (λ func, negb (hasattr (d1 self) func)) functions
    then skipTest ("Base version doesn't have all required functions: "
                   +:+ repr_tuple functions)
    else testcase self.

(** What comes of a test method under [TestCase.run] of unittest, whose
    [except] clauses are tried in this order: a [KeyboardInterrupt] is raised
    again at once and nothing is reported; an instance of the failure
    exception [AssertionError] is a failure; the markers of unittest's own
    expected-failure decorator come next; a [SkipTest] is a skip; any other
    exception is an error. *)
Inductive verdict : Type :=
  | Passed
  | Failed
  | Skipped
  | Errored
  | ExpectedFailure
  | UnexpectedSuccess
  | Interrupted.

Definition classify {A} (r : res A) : verdict :=
  match r with
  | Ok _ => Passed
  | Raise e =>
      if isinstance e "KeyboardInterrupt" then Interrupted
      else if isinstance e "AssertionError" then Failed
      else if isinstance e "_ExpectedFailure" then ExpectedFailure
      else if isinstance e "_UnexpectedSuccess" then UnexpectedSuccess
      else if isinstance e "SkipTest" then Skipped
      else Errored
  end.

(** [tearDown] runs after the test method unless a [KeyboardInterrupt] has
    left it. *)
Definition run_test (test : TestCase → M unit) (self : TestCase)
    : store → verdict * store :=
  λ s, let '(r, s1) := test self s in
       match classify r with
       | Interrupted => (Interrupted, s1)
       | v => let '(_, s2) := tearDown self s1 in (v, s2)
       end.

(** ** DeepDiff

    The comparison of the DeepDiff library, as the harness calls it (tree
    view, default options): values of different types are a type change,
    scalars are compared by value, sequences position by position, dicts by
    their keys and the values under them, and objects by their class and
    their instance dictionaries. *)

(** A step of a path into the compared objects, and a report of the tree
    view: what kind of difference was found, and where. *)
Inductive step : Type :=
  | Key (k : string)
  | Index (i : nat)
  | Attr (a : string).

Inductive report : Type :=
  | type_changes
  | values_changed
  | dictionary_item_added
  | dictionary_item_removed
  | iterable_item_added
  | iterable_item_removed
  | attribute_added
  | attribute_removed.

Abbreviation path := (list step).
Abbreviation diff := (list (report * path)).

(** Two mappings: the keys only the first has are removed, the keys only
    the second has are added, the values under a shared key are compared by
    [rec]. *)
Definition diff_mapping (mk : string → step) (added removed : report)
    (rec : path → pyval → pyval → diff) (p : path) (t1 t2 : pydict) : diff :=
  flat_map (λ item : string * pyval,
              match dict_get item.1 t2 with
              | Some v2 => rec (p ++ [mk item.1]) item.2 v2
              | None => [(removed, p ++ [mk item.1])]
              end) t1
  ++ ((λ k, (added, p ++ [mk k]))
        <$> filter (λ k, k ∉ keys t1) (keys t2)).

(** Two sequences, position by position; the longer one's tail is reported
    item by item. *)
Fixpoint diff_iterable (rec : path → pyval → pyval → diff) (p : path)
    (i : nat) (t1 t2 : list pyval) {struct t1} : diff :=
  match t1, t2 with
  | [], _ =>
      (λ j, (iterable_item_added, p ++ [Index (i + j)])) <$> seq 0 (length t2)
  | _ :: t1', [] =>
      (iterable_item_removed, p ++ [Index i]) :: diff_iterable rec p (S i) t1' []
  | x :: t1', y :: t2' =>
      rec (p ++ [Index i]) x y ++ diff_iterable rec p (S i) t1' t2'
  end.

(** Two values: of different types, a type change; scalars by equality;
    lists as sequences; dicts as mappings. *)
Fixpoint ddiff_value (p : path) (t1 t2 : pyval) {struct t1} : diff :=
  match t1, t2 with
  | PNone, PNone => []
  | PInt a, PInt b => if decide (a = b) then [] else [(values_changed, p)]
  | PStr a, PStr b => if decide (a = b) then [] else [(values_changed, p)]
  | PList l1, PList l2 => diff_iterable ddiff_value p 0 l1 l2
  | PDict m1, PDict m2 =>
      diff_mapping Key dictionary_item_added dictionary_item_removed
        ddiff_value p m1 m2
  | _, _ => [(type_changes, p)]
  end.

(** Two objects: of different classes, a type change; otherwise their
    instance dictionaries are compared, attribute by attribute. The
    identity of the objects is not looked at. *)
Definition ddiff_object (p : path) (t1 t2 : exn) : diff :=
  if decide (exn_class t1 = exn_class t2)
  then diff_mapping Attr attribute_added attribute_removed
         ddiff_value p (exn_dict t1) (exn_dict t2)
  else [(type_changes, p)].

(** The values under ['exception']: [None], or a dict with the keys
    ['object'] and ['message']. *)
Definition ddiff_exception (p : path) (t1 t2 : option captured) : diff :=
  match t1, t2 with
  | None, None => []
  | Some c1, Some c2 =>
      ddiff_object (p ++ [Key "object"]) (object c1) (object c2)
      ++ ddiff_value (p ++ [Key "message"]) (message c1) (message c2)
  | _, _ => [(type_changes, p)]
  end.

(** [ddiff(output_d1, output_d2, view=diff_view)] on two records of
    [run_closure]: both are dicts with the same three keys. *)
Definition ddiff (t1 t2 : outcome) : diff :=
  ddiff_value [Key "result"] (result t1) (result t2)
  ++ ddiff_exception [Key "exception"] (exception t1) (exception t2)
  ++ diff_mapping Key dictionary_item_added dictionary_item_removed
       ddiff_value [Key "state"] (state t1) (state t2).

(** Python's [==] on values: lists position by position, dicts by their
    keys and the values under them, whatever the order of the items. *)
Fixpoint list_eqb (rec : pyval → pyval → bool) (l1 l2 : list pyval) : bool :=
  match l1, l2 with
  | [], [] => true
  | x :: l1', y :: l2' => rec x y && list_eqb rec l1' l2'
  | _, _ => false
  end.

Definition dict_eqb (rec : pyval → pyval → bool) (m1 m2 : pydict) : bool :=
  forallb (λ item : string * pyval,
             match dict_get item.1 m2 with
             | Some v2 => rec item.2 v2
             | None => false
             end) m1
  && forallb (λ k, bool_decide (k ∈ keys m1)) (keys m2).

Fixpoint py_eqb (a b : pyval) {struct a} : bool :=
  match a, b with
  | PNone, PNone => true
  | PInt x, PInt y => bool_decide (x = y)
  | PStr x, PStr y => bool_decide (x = y)
  | PList l1, PList l2 => list_eqb py_eqb l1 l2
  | PDict m1, PDict m2 => dict_eqb py_eqb m1 m2
  | _, _ => false
  end.

(** ** The scenario of [test_set_key] *)

Definition set_key : closure :=
  λ rd, setitem rd "foo" (PStr "bar") ;;; ret PNone.

Definition test_set_key (self : TestCase) : M unit :=
  output_d1 <- run_closure set_key (d1 self) ;;
  output_d2 <- run_closure set_key (d2 self) ;;
  if decide (ddiff output_d1 output_d2 = []) then ret ()
  else raise (AssertionError "diff is not {}").

(** ** The scenario of [test_get_keyerror] *)

Definition get_keyerror : closure := λ rd, getitem rd "foo".

Definition test_get_keyerror (self : TestCase) : M unit :=
  output_d1 <- run_closure get_keyerror (d1 self) ;;
  output_d2 <- run_closure get_keyerror (d2 self) ;;
  if decide (ddiff output_d1 output_d2 = []) then ret ()
  else raise (AssertionError "diff is not {}").

(** ** [setUpClass] *)

(** The two classes under test are loaded from outside; [RedisDictV1] and
    [RedisDictV2] stand for their constructors, called with the namespace.
    The instances are created first, the database is cleared then. *)
Definition setUpClass (RedisDictV1 RedisDictV2 : string → RedisDict)
    : M TestCase :=
  let cls := {| d1 := RedisDictV1 "rd_compare_v1";
                d2 := RedisDictV2 "rd_compare_v2" |} in
  clear_test_namespace ;;; ret cls.

(** ** The scenarios of [test_set_and_get_key] and
       [test_set_and_get_key_integer] *)

Definition set_and_get_key : closure :=
  λ rd, setitem rd "foo" (PStr "bar") ;;; getitem rd "foo".

Definition test_set_and_get_key (self : TestCase) : M unit :=
  output_d1 <- run_closure set_and_get_key (d1 self) ;;
  output_d2 <- run_closure set_and_get_key (d2 self) ;;
  if decide (ddiff output_d1 output_d2 = []) then ret ()
  else raise (AssertionError "diff is not {}").

Definition set_and_get_key_integer : closure :=
  λ rd, setitem rd "foo" (PInt 1234) ;;; getitem rd "foo".

Definition test_set_and_get_key_integer (self : TestCase) : M unit :=
  output_d1 <- run_closure set_and_get_key_integer (d1 self) ;;
  output_d2 <- run_closure set_and_get_key_integer (d2 self) ;;
  if decide (ddiff output_d1 output_d2 = []) then ret ()
  else raise (AssertionError "diff is not {}").

(** The body every test method has, with its own closure: run it against
    [self.d1], then against [self.d2], diff the two records and assert that
    the diff is empty. *)
Definition compare_outputs (script : closure) (self : TestCase) : M unit :=
  output_d1 <- run_closure script (d1 self) ;;
  output_d2 <- run_closure script (d2 self) ;;
  if decide (ddiff output_d1 output_d2 = []) then ret ()
  else raise (AssertionError "diff is not {}").

(** ** Notions the properties are stated with *)

(** A pattern in which every character stands for itself: none of the
    characters [*], [?], [[] and [\] that Redis reads as pattern syntax. *)
Definition plain_char (c : ascii) : bool :=
  negb (Ascii.eqb c "*") && negb (Ascii.eqb c "?")
  && negb (Ascii.eqb c "[") && negb (Ascii.eqb c "\").

Fixpoint literal (p : string) : bool :=
  match p with
  | "" => true
  | String c p' => plain_char c && literal p'
  end.

(** [c in s] *)
Fixpoint contains (c : ascii) (s : string) : bool :=
  match s with
  | "" => false
  | String d s' => Ascii.eqb d c || contains c s'
  end.

(** The database at the moment the raw keys are enumerated: after the
    script and after [to_dict]. *)
Definition checked_store (script : closure) (rd : RedisDict) (s : store)
    : store :=
  (to_dict rd (script rd s).2).2.

(** What the scenario assumes of a version: setting ["foo"] returns,
    [to_dict] then reports [{"foo": "bar"}], and the raw keys of the
    namespace agree with that report. *)
Definition set_key_works (rd : RedisDict) (s : store) : Prop :=
  ∃ s1 s2,
    setitem rd "foo" (PStr "bar") s = (Ok (), s1)
    ∧ to_dict rd s1 = (Ok [("foo", PStr "bar")], s2)
    ∧ raw_keys rd s2 ≡ₚ ["foo"].

Definition set_key_output : outcome :=
  {| result := PNone; exception := None; state := [("foo", PStr "bar")] |}.

(** The same exception object under another identity. *)
Definition with_id (i : nat) (c : captured) : captured :=
  {| object := Exn i (exn_class (object c)) (exn_bases (object c))
                 (exn_message (object c)) (exn_dict (object c));
     message := message c |}.

(** Two captured exceptions of the same class with equal messages. *)
Definition kind_and_text_match (c1 c2 : captured) : Prop :=
  exn_class (object c1) = exn_class (object c2)
  ∧ py_eqb (message c1) (message c2) = true.

(** The entries under ['exception'] of two records agree: both [None], or
    both an exception, of the same class, with equal instance dictionaries
    and equal messages. *)
Definition errors_agree (x1 x2 : option captured) : Prop :=
  match x1, x2 with
  | None, None => True
  | Some c1, Some c2 =>
      kind_and_text_match c1 c2
      ∧ dict_eqb py_eqb (exn_dict (object c1)) (exn_dict (object c2)) = true
  | _, _ => False
  end.

(** Two records agree: equal results, agreeing exceptions, equal states. *)
Definition records_agree (o1 o2 : outcome) : Prop :=
  py_eqb (result o1) (result o2) = true
  ∧ errors_agree (exception o1) (exception o2)
  ∧ dict_eqb py_eqb (state o1) (state o2) = true.

(** A value whose dicts, at every depth, hold each key once, as the dicts of
    Python do. *)
Fixpoint unique_keys (v : pyval) : bool :=
  match v with
  | PList l => forallb unique_keys l
  | PDict m =>
      bool_decide (NoDup (keys m))
      && forallb (λ item : string * pyval, unique_keys item.2) m
  | _ => true
  end.

Definition unique_keys_record (o : outcome) : Prop :=
  unique_keys (result o) = true
  ∧ unique_keys (PDict (state o)) = true
  ∧ match exception o with
    | None => True
    | Some c =>
        unique_keys (message c) = true
        ∧ unique_keys (PDict (exn_dict (object c))) = true
    end.

(** The keys of the database under a namespace, as the consistency
    invariant words them: the keys that start with the namespace, each
    without the namespace and the one delimiter character after it. *)
Definition keys_under (ns : string) (s : store) : list string :=
  (λ key, slice_from (String.length ns + 1) key)
  <$> filter (λ key, String.prefix ns key) (map_to_list s).*1.

(** ** Sample objects under test

    A small RedisDict that keeps [value] under the key [namespace:key],
    reports what it finds there and raises [missing key] for a key it does
    not hold; one that reports an empty state whatever the database holds;
    and exceptions a version may raise. *)
Module Samples.

Definition stored (v : pyval) : string :=
  match v with PStr s => s | _ => "" end.

Definition plain_to_dict (ns : string) : M pydict :=
  λ s, (Ok ((λ kv : string * string,
               (slice_from (String.length ns + 1) kv.1, PStr kv.2))
            <$> filter (λ kv : string * string, glob_match (ns +:+ ":*") kv.1)
                  (map_to_list s)), s).

Definition plain_setitem (ns key : string) (value : pyval) : M unit :=
  λ s, (Ok (), <[ns +:+ ":" +:+ key := stored value]> s).

Definition plain_getitem (ns : string) (missing : string → exn)
    (key : string) : M pyval :=
  λ s, match s !! (ns +:+ ":" +:+ key) with
       | Some v => (Ok (PStr v), s)
       | None => (Raise (missing key), s)
       end.

Definition plain (ns : string) (attrs : list string)
    (missing : string → exn) : RedisDict :=
  {| namespace := ns; attributes := attrs;
     to_dict := plain_to_dict ns; setitem := plain_setitem ns;
     getitem := plain_getitem ns missing |}.

Definition KeyError (id : nat) (key : string) : exn :=
  Exn id "KeyError"
    ["LookupError"; "StandardError"; "Exception"; "BaseException"; "object"]
    (Some (PStr key)) [].

Definition forgetful (ns : string) : RedisDict :=
  {| namespace := ns; attributes := [];
     to_dict := ret []; setitem := plain_setitem ns;
     getitem := plain_getitem ns (KeyError 1) |}.

Definition v1 : RedisDict :=
  plain "rd_compare_v1"
    ["namespace"; "to_dict"; "__setitem__"; "__getitem__"] (KeyError 1).
Definition v2 : RedisDict :=
  plain "rd_compare_v2"
    ["namespace"; "to_dict"; "__setitem__"; "__getitem__";
     "multi_get"; "chain_set"; "keys"] (KeyError 2).

Definition KeyError_code (code : Z) (key : string) : exn :=
  Exn 8 "KeyError"
    ["LookupError"; "StandardError"; "Exception"; "BaseException"; "object"]
    (Some (PStr key)) [("code", PInt code)].
Definition KeyboardInterrupt : exn :=
  Exn 9 "KeyboardInterrupt" ["BaseException"; "object"] None [].

Definition v1_code : RedisDict := plain "rd_compare_v1" [] (KeyError_code 1).
Definition v2_code : RedisDict := plain "rd_compare_v2" [] (KeyError_code 2).

(** [def set_and_get(rd): rd['foo'] = 'bar'; return rd['baz']] *)
Definition set_and_get_missing : closure :=
  λ rd, setitem rd "foo" (PStr "bar") ;;; getitem rd "baz".
Definition interrupted : closure :=
  λ rd, setitem rd "foo" (PStr "bar") ;;; raise KeyboardInterrupt.

End Samples.

(** Further sample versions: one whose [to_dict] raises, one that returns
    [None] for a missing key instead of raising, and one that keeps its keys
    under a namespace with a [:] in it. *)
Module MoreSamples.

Definition ConnectionError : exn :=
  Exn 5 "ConnectionError"
    ["RedisError"; "Exception"; "BaseException"; "object"]
    (Some (PStr "Connection refused")) [].

Definition unreachable (ns : string) : RedisDict :=
  {| namespace := ns; attributes := [];
     to_dict := raise ConnectionError;
     setitem := Samples.plain_setitem ns;
     getitem := Samples.plain_getitem ns (Samples.KeyError 1) |}.

Definition lenient_getitem (ns key : string) : M pyval :=
  λ s, match s !! (ns +:+ ":" +:+ key) with
       | Some v => (Ok (PStr v), s)
       | None => (Ok PNone, s)
       end.

Definition lenient (ns : string) : RedisDict :=
  {| namespace := ns; attributes := [];
     to_dict := Samples.plain_to_dict ns;
     setitem := Samples.plain_setitem ns;
     getitem := lenient_getitem ns |}.

Definition nested : RedisDict :=
  Samples.plain "rd_compare:v1" [] (Samples.KeyError 1).

(** A version under the namespace [rd_compare:v1] that reports each key
    from the first [:] of its name on. *)
Definition halfway_to_dict : M pydict :=
  λ s, (Ok ((λ kv : string * string, (slice_from 11 kv.1, PStr kv.2))
            <$> filter (λ kv : string * string,
                          glob_match "rd_compare:v1:*" kv.1)
                  (map_to_list s)), s).

Definition halfway : RedisDict :=
  {| namespace := "rd_compare:v1"; attributes := [];
     to_dict := halfway_to_dict;
     setitem := Samples.plain_setitem "rd_compare:v1";
     getitem := Samples.plain_getitem "rd_compare:v1" (Samples.KeyError 1) |}.

Definition make_v1 (ns : string) : RedisDict :=
  Samples.plain ns [] (Samples.KeyError 1).
Definition make_v2 (ns : string) : RedisDict :=
  Samples.plain ns ["multi_get"; "chain_set"; "keys"] (Samples.KeyError 2).

End MoreSamples.

(** * Properties *)

(** ** The definitions on small inputs *)

Example split_namespace : split ":" "rd_compare:v1:x" = ["rd_compare"; "v1"; "x"].
Proof. reflexivity. Qed.

Example split_empty : split ":" "" = [""].
Proof. reflexivity. Qed.

Example to_rm_v1 : to_rm Samples.v1 = 14.
Proof. reflexivity. Qed.

Example slice_past_the_end : slice_from 14 "rd_compare_v1" = "".
Proof. reflexivity. Qed.

Example glob_match_namespace :
  glob_match "rd_compare_v1*" "rd_compare_v1:foo" = true
  ∧ glob_match "rd_compare_v1*" "rd_compare_v2:foo" = false
  ∧ glob_match "rd_compare_*" "rd_compare_v2:foo" = true.
Proof. repeat split. Qed.

Example sorted_keys : sorted ["john"; "foo"; "fo"] = ["fo"; "foo"; "john"].
Proof. vm_compute. reflexivity. Qed.

Example raw_keys_v1 :
  raw_keys Samples.v1
    {[ "rd_compare_v1:foo" := "bar"; "rd_compare_v2:john" := "doe" ]}
  = ["foo"].
Proof. vm_compute. reflexivity. Qed.

Example get_keyerror_same_class_and_message :
  test_get_keyerror {| d1 := Samples.v1; d2 := Samples.v2 |} ∅ = (Ok (), ∅).
Proof. vm_compute. reflexivity. Qed.

(** ** Key patterns *)

Lemma glob_match_star_any (key : string) : glob_match "*" key = true.
Proof. induction key as [|a key IH]; [reflexivity | exact IH]. Qed.

Lemma plain_char_stands_for_itself (c : ascii) :
  plain_char c = true → Ascii.eqb c "*" = false ∧ Ascii.eqb c "?" = false.
Proof.
  unfold plain_char. intros Hc.
  apply andb_prop in Hc as [Hc _]. apply andb_prop in Hc as [Hc _].
  apply andb_prop in Hc as [Hstar Hq].
  by apply negb_true_iff in Hstar, Hq.
Qed.

Lemma glob_match_literal_prefix (lit rest key : string) :
  literal lit = true →
  glob_match (lit +:+ rest) key = true → String.prefix lit key = true.
Proof.
  revert key. induction lit as [|c lit IH]; intros key Hlit Hm.
  - by destruct key.
  - cbn [literal] in Hlit. apply andb_prop in Hlit as [Hc Hlit].
    apply plain_char_stands_for_itself in Hc as [Hstar Hq].
    change (String c lit +:+ rest) with (String c (lit +:+ rest)) in Hm.
    cbn [glob_match] in Hm. rewrite Hstar, Hq in Hm.
    destruct key as [|d key]; [done|]. cbn in Hm.
    apply andb_prop in Hm as [Hcd Hm]. apply Ascii.eqb_eq in Hcd as ->.
    cbn. destruct (ascii_dec d d); [by apply IH | done].
Qed.

Lemma glob_match_literal_star (lit key : string) :
  literal lit = true →
  glob_match (lit +:+ "*") key = String.prefix lit key.
Proof.
  revert key. induction lit as [|c lit IH]; intros key Hlit.
  - rewrite glob_match_star_any. by destruct key.
  - cbn [literal] in Hlit. apply andb_prop in Hlit as [Hc Hlit].
    apply plain_char_stands_for_itself in Hc as [Hstar Hq].
    change (String c lit +:+ "*") with (String c (lit +:+ "*")).
    cbn [glob_match]. rewrite Hstar, Hq.
    destruct key as [|d key]; [done|]. cbn.
    destruct (ascii_dec c d) as [->|Hne].
    + rewrite Ascii.eqb_refl. by apply IH.
    + apply Ascii.eqb_neq in Hne. by rewrite Hne.
Qed.

Lemma prefix_app_inv (pre s : string) :
  String.prefix pre s = true → ∃ rest, s = pre +:+ rest.
Proof.
  revert s. induction pre as [|c pre IH]; intros s Hpre.
  - by exists s.
  - destruct s as [|d s]; [done|]. cbn in Hpre.
    destruct (ascii_dec c d) as [->|]; [|done].
    destruct (IH _ Hpre) as [rest ->]. by exists rest.
Qed.

(** ** The database *)

Lemma elem_of_scan_iter (pattern : string) (s : store) (k : string) :
  k ∈ scan_iter pattern s ↔ glob_match pattern k = true ∧ is_Some (s !! k).
Proof.
  unfold scan_iter. rewrite list_elem_of_filter, list_elem_of_fmap.
  rewrite Is_true_true. split.
  - intros [? [[k' v] [-> Hin]]]. split; [done|].
    apply elem_of_map_to_list in Hin. eauto.
  - intros [? [v Hv]]. split; [done|].
    exists (k, v). split; [done|]. by apply elem_of_map_to_list.
Qed.

Lemma delete_each_value (ks : list string) (s : store) :
  (delete_each ks s).1 = Ok ().
Proof.
  revert s. induction ks as [|k ks IH]; intros s; [done|].
  cbn. unfold bind, redis_delete. apply IH.
Qed.

Lemma delete_each_lookup (ks : list string) (s : store) (k : string) :
  (delete_each ks s).2 !! k = if decide (k ∈ ks) then None else s !! k.
Proof.
  revert s. induction ks as [|k' ks IH]; intros s.
  - cbn. rewrite decide_False; [done | apply not_elem_of_nil].
  - cbn. unfold bind, redis_delete. rewrite IH.
    destruct (decide (k = k')) as [->|Hne].
    + rewrite lookup_delete_eq. rewrite (decide_True (P := k' ∈ k' :: ks)).
      * by case_decide.
      * apply elem_of_cons; by left.
    + rewrite lookup_delete_ne by done.
      destruct (decide (k ∈ ks)) as [Hin|Hin].
      * rewrite decide_True; [done | apply elem_of_cons; by right].
      * rewrite decide_False; [done|].
        intros [?|?]%elem_of_cons; done.
Qed.

Lemma clear_test_namespace_value (s : store) :
  (clear_test_namespace s).1 = Ok ().
Proof. apply delete_each_value. Qed.

Lemma clear_test_namespace_lookup (s : store) (k : string) :
  (clear_test_namespace s).2 !! k
  = if String.prefix "rd_compare_" k then None else s !! k.
Proof.
  unfold clear_test_namespace. rewrite delete_each_lookup.
  pose proof (elem_of_scan_iter "rd_compare_*" s k) as Hscan.
  pose proof (glob_match_literal_star "rd_compare_" k eq_refl) as Hglob.
  change ("rd_compare_" +:+ "*") with "rd_compare_*" in Hglob.
  rewrite Hglob in Hscan.
  destruct (String.prefix "rd_compare_" k) eqn:Hpre.
  - case_decide as Hin; [done|].
    destruct (s !! k) eqn:Hk; [|done].
    exfalso. apply Hin, Hscan. eauto.
  - case_decide as Hin; [|done].
    apply Hscan in Hin as [? _]. done.
Qed.

Lemma clear_test_namespace_eta (s : store) :
  clear_test_namespace s = (Ok (), (clear_test_namespace s).2).
Proof.
  pose proof (clear_test_namespace_value s).
  destruct (clear_test_namespace s) as [r s']. by simplify_eq/=.
Qed.

(** Nothing under a namespace that starts with [rd_compare_] is left once
    every key that starts with [rd_compare_] is gone. *)
Lemma scan_iter_namespace_nil (ns : string) (s : store) :
  String.prefix "rd_compare_" ns = true →
  (∀ k, String.prefix "rd_compare_" k = true → s !! k = None) →
  scan_iter (ns +:+ "*") s = [].
Proof.
  intros Hns Hfree. apply elem_of_nil_inv. intros k Hin.
  apply elem_of_scan_iter in Hin as [Hm [v Hv]].
  assert (∃ rest, ns = "rd_compare_" +:+ rest) as [rest ->].
  { by apply prefix_app_inv. }
  change (("rd_compare_" +:+ rest) +:+ "*")
    with ("rd_compare_" +:+ (rest +:+ "*")) in Hm.
  apply glob_match_literal_prefix in Hm; [|done].
  rewrite Hfree in Hv; done.
Qed.

(** C6: [clear_test_namespace] returns normally; afterwards no key that
    starts with [rd_compare_] is left and every other key is as it was; on a
    database without such keys it changes nothing; and clearing twice in a
    row gives what clearing once gives. *)
Theorem clear_test_namespace_idempotent (s : store) :
  let s' := (clear_test_namespace s).2 in
  clear_test_namespace s = (Ok (), s')
  ∧ (∀ k, String.prefix "rd_compare_" k = true → s' !! k = None)
  ∧ (∀ k, String.prefix "rd_compare_" k = false → s' !! k = s !! k)
  ∧ ((∀ k, String.prefix "rd_compare_" k = true → s !! k = None) → s' = s)
  ∧ (clear_test_namespace ;;; clear_test_namespace) s = clear_test_namespace s.
Proof.
  cbn zeta. split; [apply clear_test_namespace_eta|].
  assert (∀ t, (∀ k, String.prefix "rd_compare_" k = true → t !! k = None) →
               (clear_test_namespace t).2 = t) as Hnoop.
  { intros t Hfree. apply map_eq. intros k.
    rewrite clear_test_namespace_lookup.
    destruct (String.prefix "rd_compare_" k) eqn:Hpre; [|done].
    by rewrite Hfree. }
  assert (∀ k, String.prefix "rd_compare_" k = true →
               (clear_test_namespace s).2 !! k = None) as Hgone.
  { intros k Hpre. by rewrite clear_test_namespace_lookup, Hpre. }
  repeat split.
  - exact Hgone.
  - intros k Hpre. by rewrite clear_test_namespace_lookup, Hpre.
  - apply Hnoop.
  - unfold bind at 1. rewrite (clear_test_namespace_eta s) at 1.
    rewrite (clear_test_namespace_eta (clear_test_namespace s).2).
    rewrite (Hnoop _ Hgone). symmetry. apply clear_test_namespace_eta.
Qed.

(** ** [run_closure], block by block *)

Lemma run_script_store (script : closure) (rd : RedisDict) (s : store) :
  (run_script script rd s).2 = (script rd s).2.
Proof.
  unfold run_script, try_except_Exception, bind, ret, getattr_message, raise.
  destruct (script rd s) as [[v|e] s1]; [done|]. cbn.
  destruct (exn_is_Exception e); [|done]. by destruct (exn_message e).
Qed.

Lemma run_script_value (script : closure) (rd : RedisDict) (s : store) :
  (run_script script rd s).1
  = match (script rd s).1 with
    | Ok v => Ok (v, None)
    | Raise e =>
        if exn_is_Exception e then
          match exn_message e with
          | Some m => Ok (PNone, Some {| object := e; message := m |})
          | None => Raise (AttributeError "message")
          end
        else Raise e
    end.
Proof.
  unfold run_script, try_except_Exception, bind, ret, getattr_message, raise.
  destruct (script rd s) as [[v|e] s1]; [done|]. cbn.
  destruct (exn_is_Exception e); [|done]. by destruct (exn_message e).
Qed.

Lemma check_and_cleanup_raise (rd : RedisDict) (s1 s2 : store) (e : exn) :
  to_dict rd s1 = (Raise e, s2) → check_and_cleanup rd s1 = (Raise e, s2).
Proof. intros H. unfold check_and_cleanup, bind. by rewrite H. Qed.

Lemma check_and_cleanup_differ (rd : RedisDict) (s1 s2 : store) (st : pydict) :
  to_dict rd s1 = (Ok st, s2) →
  sorted (raw_keys rd s2) ≠ sorted (keys st) →
  check_and_cleanup rd s1 = (Raise (AssertionError "Lists differ"), s2).
Proof.
  intros H Hne. unfold check_and_cleanup, bind, assertEqual. rewrite H.
  by rewrite decide_False.
Qed.

Lemma check_and_cleanup_equal (rd : RedisDict) (s1 s2 : store) (st : pydict) :
  to_dict rd s1 = (Ok st, s2) →
  sorted (raw_keys rd s2) = sorted (keys st) →
  check_and_cleanup rd s1 = (Ok st, (clear_test_namespace s2).2).
Proof.
  intros H Heq. unfold check_and_cleanup, bind, assertEqual. rewrite H.
  rewrite decide_True by done. unfold ret at 1.
  by rewrite (clear_test_namespace_eta s2).
Qed.

Lemma run_closure_blocks (script : closure) (rd : RedisDict) (s : store) :
  run_closure script rd s
  = match check_and_cleanup rd (script rd s).2 with
    | (Raise e', s2) => (Raise e', s2)
    | (Ok st, s2) =>
        match (run_script script rd s).1 with
        | Ok (r, exc) =>
            (Ok {| result := r; exception := exc; state := st |}, s2)
        | Raise e => (Raise e, s2)
        end
    end.
Proof.
  unfold run_closure, bind, try_finally.
  rewrite <- run_script_store.
  destruct (run_script script rd s) as [r s1]. cbn.
  destruct (check_and_cleanup rd s1) as [[st|e'] s2]; [|done].
  destruct r as [[r exc]|e]; done.
Qed.

(** Whenever the [finally] block runs to its end, the database [run_closure]
    leaves behind is the cleared one. *)
Lemma run_closure_store (script : closure) (rd : RedisDict) (s s2 : store)
    (st : pydict) :
  to_dict rd (script rd s).2 = (Ok st, s2) →
  sorted (raw_keys rd s2) = sorted (keys st) →
  (run_closure script rd s).2 = (clear_test_namespace s2).2.
Proof.
  intros Hst Heq. rewrite run_closure_blocks.
  rewrite (check_and_cleanup_equal _ _ _ _ Hst Heq).
  destruct (run_script script rd s).1 as [[r exc]|e]; done.
Qed.

(** A record is returned only when the [finally] block ran to its end. *)
Lemma run_closure_Ok_inv (script : closure) (rd : RedisDict) (s s' : store)
    (o : outcome) :
  run_closure script rd s = (Ok o, s') →
  ∃ s2, to_dict rd (script rd s).2 = (Ok (state o), s2)
        ∧ sorted (raw_keys rd s2) = sorted (keys (state o))
        ∧ s' = (clear_test_namespace s2).2
        ∧ (run_script script rd s).1 = Ok (result o, exception o).
Proof.
  rewrite run_closure_blocks. intros Hrun.
  destruct (to_dict rd (script rd s).2) as [[st|e] s2] eqn:Hst.
  - destruct (decide (sorted (raw_keys rd s2) = sorted (keys st))) as [Heq|Hne].
    + rewrite (check_and_cleanup_equal _ _ _ _ Hst Heq) in Hrun.
      destruct (run_script script rd s).1 as [[r exc]|e]; [|done].
      simplify_eq/=. by exists s2.
    + by rewrite (check_and_cleanup_differ _ _ _ _ Hst Hne) in Hrun.
  - by rewrite (check_and_cleanup_raise _ _ _ _ Hst) in Hrun.
Qed.

(** C1, as the code has it: for an instance whose namespace starts with
    [rd_compare_], on every way out of the script (a value, an [Exception]
    with or without a [message], any other exception), once [to_dict] has
    returned and the key lists have compared equal, [run_closure] leaves the
    database cleared: no key of the instance's namespace is left. When
    [to_dict] raises, or returns and the key lists differ, [run_closure]
    raises that exception and nothing has been cleared: the database is as
    [to_dict] left it. *)
Theorem run_closure_clears_after_check (script : closure) (rd : RedisDict)
    (s : store) :
  (∀ st s2,
     String.prefix "rd_compare_" (namespace rd) = true →
     to_dict rd (script rd s).2 = (Ok st, s2) →
     sorted (raw_keys rd s2) = sorted (keys st) →
     (run_closure script rd s).2 = (clear_test_namespace s2).2
     ∧ scan_iter (namespace rd +:+ "*") (run_closure script rd s).2 = [])
  ∧ (∀ e' s2,
       to_dict rd (script rd s).2 = (Raise e', s2) →
       run_closure script rd s = (Raise e', s2))
  ∧ (∀ st s2,
       to_dict rd (script rd s).2 = (Ok st, s2) →
       sorted (raw_keys rd s2) ≠ sorted (keys st) →
       run_closure script rd s = (Raise (AssertionError "Lists differ"), s2)).
Proof.
  split; [|split].
  - intros st s2 Hns Hst Heq.
    rewrite (run_closure_store _ _ _ _ _ Hst Heq). split; [done|].
    apply scan_iter_namespace_nil; [done|].
    intros k Hpre. by rewrite clear_test_namespace_lookup, Hpre.
  - intros e' s2 Hst. rewrite run_closure_blocks.
    by rewrite (check_and_cleanup_raise _ _ _ _ Hst).
  - intros st s2 Hst Hne. rewrite run_closure_blocks.
    by rewrite (check_and_cleanup_differ _ _ _ _ Hst Hne).
Qed.

(** The script is interrupted after it has set a key: the database is
    cleared on the way out. With a [to_dict] that raises, and with one that
    reports nothing, the key stays. *)
Lemma run_closure_clears_after_check_witness :
  ((run_closure Samples.interrupted Samples.v1 ∅).2
     = (clear_test_namespace {[ "rd_compare_v1:foo" := "bar" ]}).2
   ∧ scan_iter "rd_compare_v1*"
       (run_closure Samples.interrupted Samples.v1 ∅).2 = [])
  ∧ run_closure set_key (MoreSamples.unreachable "rd_compare_v1") ∅
    = (Raise MoreSamples.ConnectionError, {[ "rd_compare_v1:foo" := "bar" ]})
  ∧ run_closure set_key (Samples.forgetful "rd_compare_v1") ∅
    = (Raise (AssertionError "Lists differ"),
       {[ "rd_compare_v1:foo" := "bar" ]}).
Proof.
  split; [|split].
  - destruct (run_closure_clears_after_check Samples.interrupted Samples.v1
                (∅ : store)) as [Hclear _].
    apply (Hclear [("foo", PStr "bar")]).
    + reflexivity.
    + vm_compute. reflexivity.
    + vm_compute. reflexivity.
  - destruct (run_closure_clears_after_check set_key
                (MoreSamples.unreachable "rd_compare_v1") (∅ : store))
      as (_ & Hraise & _).
    apply Hraise. vm_compute. reflexivity.
  - destruct (run_closure_clears_after_check set_key
                (Samples.forgetful "rd_compare_v1") (∅ : store))
      as (_ & _ & Hdiffer).
    apply (Hdiffer []).
    + vm_compute. reflexivity.
    + vm_compute. discriminate.
Defined.

(** A namespace outside [rd_compare_] is not cleared at all. *)
Example run_closure_foreign_namespace :
  (run_closure set_key (Samples.plain "elsewhere" [] (Samples.KeyError 1)) ∅).2
  = {[ "elsewhere:foo" := "bar" ]}.
Proof. vm_compute. reflexivity. Qed.

(** C1, as stated, fails: a version whose [to_dict] reports nothing while
    the database holds its key makes the assertion fail, and [run_closure]
    is left with the key still in the database. *)
Lemma run_closure_keeps_keys_when_check_fails :
  run_closure set_key (Samples.forgetful "rd_compare_v1") ∅
    = (Raise (AssertionError "Lists differ"),
       {[ "rd_compare_v1:foo" := "bar" ]})
  ∧ scan_iter "rd_compare_v1*"
      (run_closure set_key (Samples.forgetful "rd_compare_v1") ∅).2
    = ["rd_compare_v1:foo"].
Proof. split; vm_compute; reflexivity. Qed.

(** C10, as the code has it: the cleanup of [run_closure] is not limited to
    the instance it ran. On every way out on which [to_dict] has returned
    and the key lists have compared equal, whether a record is returned or
    an exception leaves, every key that starts with [rd_compare_] is
    deleted and every other key is kept, so the namespace of any other
    instance under [rd_compare_] is empty as well. When [to_dict] raises,
    or the key lists differ, no key is deleted, those of the other instance
    included. *)
Theorem run_closure_clears_other_namespace (script : closure)
    (rd other : RedisDict) (s : store) :
  (∀ st s2,
     to_dict rd (script rd s).2 = (Ok st, s2) →
     sorted (raw_keys rd s2) = sorted (keys st) →
     (∀ k, (run_closure script rd s).2 !! k
           = if String.prefix "rd_compare_" k then None else s2 !! k)
     ∧ (String.prefix "rd_compare_" (namespace other) = true →
          scan_iter (namespace other +:+ "*") (run_closure script rd s).2
          = []))
  ∧ (∀ e' s2,
       to_dict rd (script rd s).2 = (Raise e', s2) →
       (run_closure script rd s).2 = s2)
  ∧ (∀ st s2,
       to_dict rd (script rd s).2 = (Ok st, s2) →
       sorted (raw_keys rd s2) ≠ sorted (keys st) →
       (run_closure script rd s).2 = s2).
Proof.
  split; [|split].
  - intros st s2 Hst Heq. rewrite (run_closure_store _ _ _ _ _ Hst Heq).
    split; [apply clear_test_namespace_lookup|].
    intros Hns. apply scan_iter_namespace_nil; [done|].
    intros k Hpre. by rewrite clear_test_namespace_lookup, Hpre.
  - intros e' s2 Hst. rewrite run_closure_blocks.
    by rewrite (check_and_cleanup_raise _ _ _ _ Hst).
  - intros st s2 Hst Hne. rewrite run_closure_blocks.
    by rewrite (check_and_cleanup_differ _ _ _ _ Hst Hne).
Qed.

(** A key of the second version is in the database while the closure runs
    against the first one; afterwards it is gone. *)
Lemma run_closure_clears_other_namespace_witness :
  scan_iter "rd_compare_v2*" {[ "rd_compare_v2:spam" := "eggs" ]}
    = ["rd_compare_v2:spam"]
  ∧ scan_iter "rd_compare_v2*"
      (run_closure set_key Samples.v1 {[ "rd_compare_v2:spam" := "eggs" ]}).2
    = [].
Proof.
  split; [vm_compute; reflexivity|].
  destruct (run_closure_clears_other_namespace set_key Samples.v1 Samples.v2
              {[ "rd_compare_v2:spam" := "eggs" ]}) as [Hclear _].
  destruct (Hclear [("foo", PStr "bar")]
              {[ "rd_compare_v1:foo" := "bar";
                 "rd_compare_v2:spam" := "eggs" ]}) as [_ Hother].
  - vm_compute. reflexivity.
  - vm_compute. reflexivity.
  - apply Hother. reflexivity.
Defined.

(** C10, as stated, fails: the closure runs against a first version whose
    [to_dict] reports nothing; the assertion fails, and the key of the
    second version is still in the database. *)
Lemma other_namespace_survives_failed_check :
  run_closure set_key (Samples.forgetful "rd_compare_v1")
    {[ "rd_compare_v2:spam" := "eggs" ]}
  = (Raise (AssertionError "Lists differ"),
     {[ "rd_compare_v1:foo" := "bar"; "rd_compare_v2:spam" := "eggs" ]})
  ∧ scan_iter "rd_compare_v2*"
      (run_closure set_key (Samples.forgetful "rd_compare_v1")
         {[ "rd_compare_v2:spam" := "eggs" ]}).2
    = ["rd_compare_v2:spam"].
Proof. split; vm_compute; reflexivity. Qed.

(** ** The consistency check *)

Lemma sorted_eq_Permutation (l1 l2 : list string) :
  sorted l1 = sorted l2 → l1 ≡ₚ l2.
Proof.
  unfold sorted. intros Heq.
  rewrite <- (merge_sort_Permutation String.le l1).
  rewrite <- (merge_sort_Permutation String.le l2). by rewrite Heq.
Qed.

Lemma Permutation_sorted_eq (l1 l2 : list string) :
  l1 ≡ₚ l2 → sorted l1 = sorted l2.
Proof.
  unfold sorted. intros Hperm.
  apply (Sorted_unique String.le); [apply Sorted_merge_sort; apply _ ..|].
  by rewrite !merge_sort_Permutation.
Qed.

(** ** The shape of a record *)

(** C4: in a record that [run_closure] returns, [result] and [exception]
    are never both present; when the script raised, [result] is [None] and
    [exception] holds the raised object; when the script returned, [result]
    is its value and [exception] is [None]. *)
Theorem result_or_exception (script : closure) (rd : RedisDict) (s s' : store)
    (o : outcome) :
  run_closure script rd s = (Ok o, s') →
  (result o = PNone ∨ exception o = None)
  ∧ (∀ e, (script rd s).1 = Raise e →
       result o = PNone
       ∧ ∃ m, exn_message e = Some m
              ∧ exception o = Some {| object := e; message := m |})
  ∧ (∀ v, (script rd s).1 = Ok v → result o = v ∧ exception o = None).
Proof.
  intros Hrun. apply run_closure_Ok_inv in Hrun as (s2 & _ & _ & _ & Hscript).
  rewrite run_script_value in Hscript.
  destruct (script rd s).1 as [v|e].
  - simplify_eq/=. split; [by right|]. split; [done|].
    intros v' ?. by simplify_eq.
  - destruct (exn_is_Exception e); [|done].
    destruct (exn_message e) as [m|] eqn:Hm; [|done].
    simplify_eq/=. split; [by left|]. split; [|done].
    intros e' ?. simplify_eq. split; [done|]. by exists m.
Qed.

(** [get_keyerror] against the first sample version. *)
Lemma result_or_exception_witness :
  let o := {| result := PNone;
              exception := Some {| object := Samples.KeyError 1 "foo";
                                   message := PStr "foo" |};
              state := [] |} in
  (result o = PNone ∨ exception o = None)
  ∧ (∀ e, (get_keyerror Samples.v1 ∅).1 = Raise e →
       result o = PNone
       ∧ ∃ m, exn_message e = Some m
              ∧ exception o = Some {| object := e; message := m |})
  ∧ (∀ v, (get_keyerror Samples.v1 ∅).1 = Ok v →
       result o = v ∧ exception o = None).
Proof.
  apply (result_or_exception get_keyerror Samples.v1 ∅ ∅).
  vm_compute. reflexivity.
Defined.

(** ** Exceptions without [message] *)



(** ** Skipping *)

Lemma requireFunctions_decides (functions : list string)
    (testcase : TestCase → M unit) (self : TestCase) (s : store) :
  requireFunctions functions testcase self s
  = if decide (Forall (λ f, f ∈ attributes (d1 self)) functions)
    then testcase self s
    else (Raise (SkipTest ("Base version doesn't have all required functions: "
                           +:+ repr_tuple functions)), s).
Proof.
  unfold requireFunctions.
  destruct (existsb _ functions) eqn:Hex.
  - rewrite decide_False; [done|]. intros Hall.
    apply existsb_exists in Hex as (f & Hin & Hf).
    apply list_elem_of_In in Hin. rewrite Forall_forall in Hall.
    apply negb_true_iff, bool_decide_eq_false in Hf. by apply Hf, Hall.
  - rewrite decide_True; [done|]. apply Forall_forall. intros f Hin.
    destruct (decide (f ∈ attributes (d1 self))) as [|Hnot]; [done|].
    assert (existsb (λ func, negb (hasattr (d1 self) func)) functions = true)
      as Habs; [|by rewrite Habs in Hex].
    apply existsb_exists. exists f. split; [by apply list_elem_of_In|].
    by apply negb_true_iff, bool_decide_eq_false.
Qed.

(** C5: when the first version lacks one of the required functions, the
    wrapped test raises [SkipTest] at once: the test body is not run for
    either version, the database is left as it was, the second version is
    not looked at, and unittest reports a skip, not a failure. *)
Theorem requireFunctions_skips (functions : list string)
    (testcase : TestCase → M unit) (rd1 rd2 : RedisDict) (s : store)
    (f : string) :
  f ∈ functions →
  f ∉ attributes rd1 →
  let self := {| d1 := rd1; d2 := rd2 |} in
  requireFunctions functions testcase self s
  = (Raise (SkipTest ("Base version doesn't have all required functions: "
                      +:+ repr_tuple functions)), s)
  ∧ (run_test (requireFunctions functions testcase) self s).1 = Skipped
  ∧ (run_test (requireFunctions functions testcase) self s).1 ≠ Failed.
Proof.
  intros Hin Hnot self.
  assert (requireFunctions functions testcase self s
          = (Raise (SkipTest ("Base version doesn't have all required functions: "
                              +:+ repr_tuple functions)), s)) as Hskip.
  { rewrite requireFunctions_decides. rewrite decide_False; [done|].
    rewrite Forall_forall. intros Hall. by apply Hnot, (Hall f). }
  split; [done|]. unfold run_test. rewrite Hskip.
  destruct (tearDown self s) as [r s2]. by cbn.
Qed.

(** [test_keys] with a first version that has no [keys] and a second one
    that has it. *)
Lemma requireFunctions_skips_witness :
  let self := {| d1 := Samples.v1; d2 := Samples.v2 |} in
  hasattr Samples.v2 "keys" = true
  ∧ requireFunctions ["keys"] test_set_key self ∅
    = (Raise (SkipTest "Base version doesn't have all required functions: ('keys',)"),
       ∅)
  ∧ (run_test (requireFunctions ["keys"] test_set_key) self ∅).1 = Skipped
  ∧ (run_test (requireFunctions ["keys"] test_set_key) self ∅).1 ≠ Failed.
Proof.
  split; [reflexivity|].
  apply (requireFunctions_skips ["keys"] test_set_key Samples.v1 Samples.v2 ∅
           "keys").
  - apply list_elem_of_here.
  - cbn. rewrite !elem_of_cons, elem_of_nil.
    intros Hin. by repeat destruct Hin as [Hin|Hin].
Defined.

(** ** Cutting off the namespace *)

Lemma split_without_sep (sep : ascii) (s : string) :
  contains sep s = false → split sep s = [s].
Proof.
  induction s as [|c s IH]; [done|]. cbn. intros Hc.
  apply orb_false_elim in Hc as [Hne Hc]. apply Ascii.eqb_neq in Hne.
  rewrite decide_False by done. by rewrite IH.
Qed.

Lemma split_head (sep : ascii) (a b : string) :
  contains sep a = false →
  hd "" (split sep (a +:+ String sep b)) = a.
Proof.
  induction a as [|c a IH]; cbn; intros Hc.
  - change ("" +:+ String sep b) with (String sep b). cbn.
    by rewrite decide_True.
  - apply orb_false_elim in Hc as [Hne Hc]. apply Ascii.eqb_neq in Hne.
    change (String c a +:+ String sep b) with (String c (a +:+ String sep b)).
    cbn. rewrite decide_False by done. specialize (IH Hc).
    destruct (split sep (a +:+ String sep b)) as [|piece rest]; cbn in *;
      by subst.
Qed.

Lemma slice_from_length (n : nat) (key : string) :
  String.length (slice_from n key) = String.length key - n.
Proof.
  revert key. induction n as [|n IH]; intros key; cbn.
  - lia.
  - destruct key as [|c key]; cbn; [done | apply IH].
Qed.

Lemma slice_from_app (n : nat) (key : string) :
  (n ≤ String.length key)%nat →
  key = String.substring 0 n key +:+ slice_from n key
  ∧ String.length (String.substring 0 n key) = n.
Proof.
  revert key. induction n as [|n IH]; intros key Hn.
  - by destruct key.
  - destruct key as [|c key]; cbn in Hn; [lia|].
    destruct (IH key) as [Hkey Hlen]; [lia|]. cbn.
    change (String c (String.substring 0 n key) +:+ slice_from n key)
      with (String c (String.substring 0 n key +:+ slice_from n key)).
    by rewrite <- Hkey, Hlen.
Qed.

(** C8: the raw keys are the keys that match [namespace*], each cut with
    the slice [key[to_rm:]], which removes the first [to_rm] characters (a
    shorter key is emptied). For a namespace without [:], [to_rm] is the
    length of the namespace plus one; for a namespace with a [:], it is the
    length of the part before the first [:] plus one, whatever follows. *)
Theorem to_rm_counts_to_first_colon (rd : RedisDict) :
  (∀ s, raw_keys rd s
        = slice_from (to_rm rd) <$> scan_iter (namespace rd +:+ "*") s)
  ∧ (contains ":" (namespace rd) = false →
       to_rm rd = String.length (namespace rd) + 1)
  ∧ (∀ a b, namespace rd = a +:+ ":" +:+ b → contains ":" a = false →
       to_rm rd = String.length a + 1)
  ∧ (∀ key, String.length (slice_from (to_rm rd) key)
            = String.length key - to_rm rd)
  ∧ (∀ key, (to_rm rd ≤ String.length key)%nat →
       key = String.substring 0 (to_rm rd) key +:+ slice_from (to_rm rd) key
       ∧ String.length (String.substring 0 (to_rm rd) key) = to_rm rd).
Proof.
  split; [done|]. split; [|split; [|split]].
  - intros Hc. unfold to_rm. by rewrite split_without_sep.
  - intros a b Hns Hc. unfold to_rm. rewrite Hns.
    change (a +:+ ":" +:+ b) with (a +:+ String ":" b).
    by rewrite split_head.
  - intros key. apply slice_from_length.
  - intros key. apply slice_from_app.
Qed.

(** ** The state against the database *)

(** For a namespace without pattern characters and without [:], the raw
    keys of the code are the keys of the database under the namespace. *)
Lemma raw_keys_keys_under (rd : RedisDict) (s : store) :
  literal (namespace rd) = true →
  contains ":" (namespace rd) = false →
  raw_keys rd s = keys_under (namespace rd) s.
Proof.
  intros Hlit Hc. unfold raw_keys, keys_under, scan_iter, to_rm.
  rewrite split_without_sep by done. cbn [hd]. f_equal.
  apply list_filter_iff. intros key.
  by rewrite glob_match_literal_star.
Qed.

(** C3, as the code has it: for an instance whose namespace holds no
    pattern character and no [:], in every record that [run_closure]
    returns, [state] is what [to_dict] reported and its keys are, up to
    their order, the keys the database holds under the namespace at that
    moment, each without the namespace and the delimiter after it, so the
    two key sets are equal; and when [to_dict] has returned and the two key
    sets differ, [run_closure] raises the [AssertionError] instead of
    returning a record. *)
Theorem state_keys_are_raw_keys (script : closure) (rd : RedisDict)
    (s : store) :
  literal (namespace rd) = true →
  contains ":" (namespace rd) = false →
  (∀ o s', run_closure script rd s = (Ok o, s') →
     (to_dict rd (script rd s).2).1 = Ok (state o)
     ∧ keys (state o)
       ≡ₚ keys_under (namespace rd) (checked_store script rd s)
     ∧ list_to_set (keys (state o))
       =@{gset string}
       list_to_set (keys_under (namespace rd) (checked_store script rd s)))
  ∧ (∀ st, (to_dict rd (script rd s).2).1 = Ok st →
       list_to_set (keys st)
       ≠@{gset string}
       list_to_set (keys_under (namespace rd) (checked_store script rd s)) →
       ∃ s', run_closure script rd s
             = (Raise (AssertionError "Lists differ"), s')).
Proof.
  intros Hlit Hc. unfold checked_store. split.
  - intros o s' Hrun.
    apply run_closure_Ok_inv in Hrun as (s2 & Hst & Heq & _ & _).
    rewrite Hst. cbn. apply sorted_eq_Permutation in Heq.
    rewrite raw_keys_keys_under in Heq by done.
    split; [done|]. split; [done|].
    apply set_eq. intros k. rewrite !elem_of_list_to_set. by rewrite Heq.
  - intros st Hst Hne.
    destruct (to_dict rd (script rd s).2) as [r s2] eqn:Hto.
    cbn in Hst, Hne. subst r. exists s2.
    rewrite run_closure_blocks.
    rewrite (check_and_cleanup_differ _ _ _ _ Hto); [done|].
    intros Heq. apply Hne. apply sorted_eq_Permutation in Heq.
    rewrite raw_keys_keys_under in Heq by done.
    apply set_eq. intros k. rewrite !elem_of_list_to_set. by rewrite Heq.
Qed.

(** [set_key] against the first sample version, beside a key of the second
    one: the record has the one key the database holds under
    [rd_compare_v1]. *)
Lemma state_keys_are_raw_keys_witness :
  keys_under "rd_compare_v1"
    {[ "rd_compare_v1:foo" := "bar"; "rd_compare_v2:spam" := "eggs" ]}
  = ["foo"]
  ∧ (∀ o s',
       run_closure set_key Samples.v1 {[ "rd_compare_v2:spam" := "eggs" ]}
       = (Ok o, s') →
       (to_dict Samples.v1
          (set_key Samples.v1 {[ "rd_compare_v2:spam" := "eggs" ]}).2).1
       = Ok (state o)
       ∧ keys (state o)
         ≡ₚ keys_under "rd_compare_v1"
              (checked_store set_key Samples.v1
                 {[ "rd_compare_v2:spam" := "eggs" ]})
       ∧ list_to_set (keys (state o))
         =@{gset string}
         list_to_set
           (keys_under "rd_compare_v1"
              (checked_store set_key Samples.v1
                 {[ "rd_compare_v2:spam" := "eggs" ]}))).
Proof.
  split; [vm_compute; reflexivity|].
  apply (state_keys_are_raw_keys set_key Samples.v1
           {[ "rd_compare_v2:spam" := "eggs" ]}); reflexivity.
Defined.

(** C3, as stated, fails for a namespace with a [:] in it: the version
    reports its key from the first [:] on, as the check cuts it, and a
    record is returned whose key is not the key the database holds under
    the namespace. *)
Lemma state_keys_differ_under_colon_namespace :
  ∃ o s',
    run_closure set_key MoreSamples.halfway ∅ = (Ok o, s')
    ∧ keys (state o) = ["v1:foo"]
    ∧ keys_under "rd_compare:v1"
        (checked_store set_key MoreSamples.halfway ∅) = ["foo"]
    ∧ list_to_set (keys (state o))
      ≠@{gset string}
      list_to_set
        (keys_under "rd_compare:v1"
           (checked_store set_key MoreSamples.halfway ∅)).
Proof.
  eexists _, _. split; [vm_compute; reflexivity|].
  split; [reflexivity|]. split; [vm_compute; reflexivity|].
  intros Heq.
  assert ("foo" ∈@{gset string} list_to_set (keys [("v1:foo", PStr "bar")]))
    as Hin.
  { cbn [state] in Heq. rewrite Heq. apply elem_of_list_to_set.
    replace (keys_under "rd_compare:v1"
               (checked_store set_key MoreSamples.halfway ∅))
      with ["foo"] by (vm_compute; reflexivity).
    apply list_elem_of_here. }
  apply elem_of_list_to_set in Hin. cbn in Hin.
  apply elem_of_cons in Hin as [Hin|Hin]; [discriminate Hin|].
  by apply elem_of_nil in Hin.
Qed.

(** ** [test_set_key] *)

Lemma run_closure_set_key (rd : RedisDict) (s : store) :
  set_key_works rd s →
  ∃ s', run_closure set_key rd s = (Ok set_key_output, s').
Proof.
  intros (s1 & s2 & Hset & Hst & Hraw).
  assert (set_key rd s = (Ok PNone, s1)) as Hscript.
  { unfold set_key, bind. by rewrite Hset. }
  exists (clear_test_namespace s2).2.
  rewrite run_closure_blocks, run_script_value, Hscript. cbn.
  rewrite (check_and_cleanup_equal _ _ _ _ Hst); [done|].
  by apply Permutation_sorted_eq.
Qed.

(** C7: when setting ["foo"] works for both versions, each in the database
    it is run in, [run_closure set_key] returns
    [{result: None, exception: None, state: {"foo": "bar"}}] for both, the
    diff of the two records is empty, and the test passes. *)
Theorem test_set_key_outputs (self : TestCase) (s : store) :
  set_key_works (d1 self) s →
  set_key_works (d2 self) (run_closure set_key (d1 self) s).2 →
  ∃ s1 s2,
    run_closure set_key (d1 self) s = (Ok set_key_output, s1)
    ∧ run_closure set_key (d2 self) s1 = (Ok set_key_output, s2)
    ∧ ddiff set_key_output set_key_output = []
    ∧ test_set_key self s = (Ok (), s2).
Proof.
  intros H1 H2.
  destruct (run_closure_set_key _ _ H1) as [s1 Hrun1].
  rewrite Hrun1 in H2. cbn in H2.
  destruct (run_closure_set_key _ _ H2) as [s2 Hrun2].
  exists s1, s2. split; [done|]. split; [done|]. split; [reflexivity|].
  unfold test_set_key, bind. rewrite Hrun1, Hrun2. reflexivity.
Qed.

(** The two sample versions on an empty database. *)
Lemma test_set_key_outputs_witness :
  ∃ s1 s2,
    run_closure set_key Samples.v1 ∅ = (Ok set_key_output, s1)
    ∧ run_closure set_key Samples.v2 s1 = (Ok set_key_output, s2)
    ∧ ddiff set_key_output set_key_output = []
    ∧ test_set_key {| d1 := Samples.v1; d2 := Samples.v2 |} ∅ = (Ok (), s2).
Proof.
  apply (test_set_key_outputs {| d1 := Samples.v1; d2 := Samples.v2 |} ∅).
  - exists {[ "rd_compare_v1:foo" := "bar" ]},
           {[ "rd_compare_v1:foo" := "bar" ]}.
    split; [reflexivity|]. split; vm_compute; reflexivity.
  - exists {[ "rd_compare_v2:foo" := "bar" ]},
           {[ "rd_compare_v2:foo" := "bar" ]}.
    split; [vm_compute; reflexivity|]. split; vm_compute; reflexivity.
Defined.

(** ** DeepDiff and equality *)

Lemma pyval_ind (P : pyval → Prop) :
  P PNone →
  (∀ z, P (PInt z)) →
  (∀ s, P (PStr s)) →
  (∀ l, Forall P l → P (PList l)) →
  (∀ m, Forall (λ item, P item.2) m → P (PDict m)) →
  ∀ v, P v.
Proof.
  intros HNone HInt HStr HList HDict. fix IH 1. intros [|z|s|l|m].
  - exact HNone.
  - apply HInt.
  - apply HStr.
  - apply HList. induction l as [|x l IHl]; constructor; [apply IH | exact IHl].
  - apply HDict.
    induction m as [|[k x] m IHm]; constructor; [apply IH | exact IHm].
Qed.

Section diff_is_equality.

Variable rec : path → pyval → pyval → diff.
Variable eqb : pyval → pyval → bool.

Lemma diff_iterable_nil (t1 : list pyval) :
  Forall (λ x, ∀ p y, rec p x y = [] ↔ eqb x y = true) t1 →
  ∀ p i t2, diff_iterable rec p i t1 t2 = [] ↔ list_eqb eqb t1 t2 = true.
Proof.
  induction 1 as [|x t1 Hx _ IH]; intros p i [|y t2]; cbn; try done.
  rewrite app_nil, andb_true_iff, Hx, IH. done.
Qed.

Lemma diff_shared_nil (mk : string → step) (removed : report) (p : path)
    (t1 t2 : pydict) :
  Forall (λ item : string * pyval,
            ∀ p y, rec p item.2 y = [] ↔ eqb item.2 y = true) t1 →
  flat_map (λ item : string * pyval,
              match dict_get item.1 t2 with
              | Some v2 => rec (p ++ [mk item.1]) item.2 v2
              | None => [(removed, p ++ [mk item.1])]
              end) t1 = []
  ↔ forallb (λ item : string * pyval,
               match dict_get item.1 t2 with
               | Some v2 => eqb item.2 v2
               | None => false
               end) t1 = true.
Proof.
  induction 1 as [|[k x] t1 Hx _ IH]; cbn; [done|].
  rewrite app_nil, andb_true_iff, IH.
  destruct (dict_get k t2) as [v2|]; [by rewrite (Hx _ v2)|].
  split; by intros [? _].
Qed.

Lemma diff_added_nil (mk : string → step) (added : report) (p : path)
    (ks1 ks2 : list string) :
  (λ k, (added, p ++ [mk k])) <$> filter (λ k, k ∉ ks1) ks2 = []
  ↔ forallb (λ k, bool_decide (k ∈ ks1)) ks2 = true.
Proof.
  induction ks2 as [|k ks2 IH]; [done|].
  rewrite filter_cons. cbn [forallb].
  rewrite andb_true_iff, <- IH, bool_decide_eq_true.
  destruct (decide (k ∈ ks1)) as [Hk|Hk].
  - rewrite decide_False by (by intros ?). by split; [|intros [_ ?]].
  - rewrite decide_True by done. cbn. split; [done|]. by intros [? _].
Qed.

Lemma diff_mapping_nil (mk : string → step) (added removed : report)
    (p : path) (t1 t2 : pydict) :
  Forall (λ item : string * pyval,
            ∀ p y, rec p item.2 y = [] ↔ eqb item.2 y = true) t1 →
  diff_mapping mk added removed rec p t1 t2 = [] ↔ dict_eqb eqb t1 t2 = true.
Proof.
  intros Hrec. unfold diff_mapping, dict_eqb.
  by rewrite app_nil, andb_true_iff, diff_shared_nil, diff_added_nil.
Qed.

End diff_is_equality.

Lemma ddiff_value_nil (t1 t2 : pyval) (p : path) :
  ddiff_value p t1 t2 = [] ↔ py_eqb t1 t2 = true.
Proof.
  revert p t2. induction t1 as [|a|a|l1 IH|m1 IH] using pyval_ind;
    intros p [|b|b|l2|m2]; cbn; try done.
  - rewrite bool_decide_eq_true. by case_decide.
  - rewrite bool_decide_eq_true. by case_decide.
  - apply diff_iterable_nil. eapply Forall_impl; [exact IH|]. intros x Hx q y. apply Hx.
  - apply diff_mapping_nil. eapply Forall_impl; [exact IH|]. intros x Hx q y. apply Hx.
Qed.

Lemma ddiff_dict_nil (mk : string → step) (added removed : report)
    (p : path) (t1 t2 : pydict) :
  diff_mapping mk added removed ddiff_value p t1 t2 = []
  ↔ dict_eqb py_eqb t1 t2 = true.
Proof.
  apply diff_mapping_nil. apply Forall_forall. intros item _ q y.
  apply ddiff_value_nil.
Qed.

Lemma ddiff_object_nil (p : path) (t1 t2 : exn) :
  ddiff_object p t1 t2 = []
  ↔ exn_class t1 = exn_class t2
    ∧ dict_eqb py_eqb (exn_dict t1) (exn_dict t2) = true.
Proof.
  unfold ddiff_object. case_decide as Hclass.
  - rewrite ddiff_dict_nil. tauto.
  - split; [done|]. by intros [? _].
Qed.

Lemma ddiff_exception_nil (p : path) (x1 x2 : option captured) :
  ddiff_exception p x1 x2 = [] ↔ errors_agree x1 x2.
Proof.
  destruct x1 as [c1|], x2 as [c2|]; cbn; try done.
  unfold kind_and_text_match.
  rewrite app_nil, ddiff_object_nil, ddiff_value_nil. tauto.
Qed.

(** C2, as the code has it: the diff of two records is empty exactly when
    their results are equal, their states are equal and their exceptions
    agree: both absent, or both present with the same class, equal messages
    and equal instance dictionaries of the exception objects (so exactly
    when class and message match for exception objects without instance
    attributes). The identity of the exception objects plays no part, and an
    exception on one side only always gives a diff that is not empty. *)
Theorem ddiff_compares_errors (o1 o2 : outcome) :
  (ddiff o1 o2 = []
   ↔ py_eqb (result o1) (result o2) = true
     ∧ errors_agree (exception o1) (exception o2)
     ∧ dict_eqb py_eqb (state o1) (state o2) = true)
  ∧ (∀ c1 c2, exn_dict (object c1) = [] → exn_dict (object c2) = [] →
       errors_agree (Some c1) (Some c2) ↔ kind_and_text_match c1 c2)
  ∧ (∀ p c1 c2 i1 i2,
       ddiff_exception p (Some (with_id i1 c1)) (Some (with_id i2 c2))
       = ddiff_exception p (Some c1) (Some c2))
  ∧ (is_Some (exception o1) → exception o2 = None → ddiff o1 o2 ≠ [])
  ∧ (exception o1 = None → is_Some (exception o2) → ddiff o1 o2 ≠ []).
Proof.
  assert (ddiff o1 o2 = []
          ↔ py_eqb (result o1) (result o2) = true
            ∧ errors_agree (exception o1) (exception o2)
            ∧ dict_eqb py_eqb (state o1) (state o2) = true) as Hnil.
  { unfold ddiff.
    by rewrite !app_nil, ddiff_value_nil, ddiff_exception_nil, ddiff_dict_nil. }
  split; [done|]. split; [|split; [|split]].
  - intros c1 c2 H1 H2. cbn. rewrite H1, H2. cbn. tauto.
  - done.
  - intros [c1 H1] H2 Hd. apply Hnil in Hd as (_ & Hd & _).
    by rewrite H1, H2 in Hd.
  - intros H1 [c2 H2] Hd. apply Hnil in Hd as (_ & Hd & _).
    by rewrite H1, H2 in Hd.
Qed.

(** C2, as stated, fails: two versions raise a [KeyError] with the same
    message for the missing key, and the two exception objects carry a
    different attribute; class and message match, and the diff is not
    empty. *)
Lemma same_kind_and_text_with_diff :
  ∃ o1 o2 c1 c2,
    run_closure get_keyerror Samples.v1_code ∅ = (Ok o1, ∅)
    ∧ run_closure get_keyerror Samples.v2_code ∅ = (Ok o2, ∅)
    ∧ exception o1 = Some c1 ∧ exception o2 = Some c2
    ∧ kind_and_text_match c1 c2
    ∧ ddiff o1 o2
      = [(values_changed, [Key "exception"; Key "object"; Attr "code"])].
Proof.
  eexists _, _, _, _. split; [vm_compute; reflexivity|].
  split; [vm_compute; reflexivity|]. split; [reflexivity|].
  split; [reflexivity|]. split; [by split|]. vm_compute. reflexivity.
Qed.

(** * Further properties of the harness *)

(** ** [requireFunctions] when nothing is missing *)

(** X1: when the first version has every required function, the wrapped
    test is the test itself: same value, same database, whatever the second
    version has. *)
Theorem requireFunctions_runs_test (functions : list string)
    (testcase : TestCase → M unit) (self : TestCase) (s : store) :
  Forall (λ f, f ∈ attributes (d1 self)) functions →
  requireFunctions functions testcase self s = testcase self s.
Proof.
  intros Hall. rewrite requireFunctions_decides. by rewrite decide_True.
Qed.

(** The first version has [keys], the second one has not: no skip. *)
Lemma requireFunctions_runs_test_witness :
  requireFunctions ["keys"] test_set_key
    {| d1 := Samples.v2; d2 := Samples.v1 |} ∅
  = test_set_key {| d1 := Samples.v2; d2 := Samples.v1 |} ∅.
Proof.
  apply (requireFunctions_runs_test ["keys"] test_set_key
           {| d1 := Samples.v2; d2 := Samples.v1 |} ∅).
  constructor; [|constructor]. cbn. rewrite !elem_of_cons. tauto.
Defined.

(** ** [tearDown] after a test method *)

(** X2: after a test method that returned, or raised anything but a
    [KeyboardInterrupt], [tearDown] has run: no key that starts with
    [rd_compare_] is left and every other key is as the method left it.
    After a [KeyboardInterrupt] nothing is reported and [tearDown] has not
    run: the database is as the method left it. *)
Theorem run_test_postcondition (test : TestCase → M unit) (self : TestCase)
    (s : store) :
  ((∀ e, (test self s).1 = Raise e → isinstance e "KeyboardInterrupt" = false) →
   ∀ k, (run_test test self s).2 !! k
        = if String.prefix "rd_compare_" k then None
          else (test self s).2 !! k)
  ∧ (∀ e, (test self s).1 = Raise e → isinstance e "KeyboardInterrupt" = true →
       run_test test self s = (Interrupted, (test self s).2)).
Proof.
  unfold run_test, tearDown. destruct (test self s) as [r s1]. cbn. split.
  - intros Hnot k.
    assert (classify r ≠ Interrupted) as Hv.
    { destruct r as [v|e]; [done|]. cbn. rewrite (Hnot e eq_refl).
      by repeat case_match. }
    rewrite (clear_test_namespace_eta s1).
    destruct (classify r); try done; apply clear_test_namespace_lookup.
  - intros e -> Hint. cbn. by rewrite Hint.
Qed.

(** A test that fails leaves a cleared database; a test that is interrupted
    leaves its key behind. *)
Lemma run_test_postcondition_witness :
  (∀ k, (run_test test_get_keyerror
           {| d1 := Samples.v1; d2 := MoreSamples.lenient "rd_compare_v2" |}
           {[ "rd_compare_v2:spam" := "eggs" ]}).2 !! k
        = if String.prefix "rd_compare_" k then None
          else (test_get_keyerror
                  {| d1 := Samples.v1;
                     d2 := MoreSamples.lenient "rd_compare_v2" |}
                  {[ "rd_compare_v2:spam" := "eggs" ]}).2 !! k)
  ∧ run_test (λ self, setitem (d1 self) "foo" (PStr "bar") ;;;
                      raise Samples.KeyboardInterrupt)
      {| d1 := Samples.v1; d2 := Samples.v2 |} ∅
    = (Interrupted, {[ "rd_compare_v1:foo" := "bar" ]}).
Proof.
  split.
  - destruct (run_test_postcondition test_get_keyerror
                {| d1 := Samples.v1; d2 := MoreSamples.lenient "rd_compare_v2" |}
                {[ "rd_compare_v2:spam" := "eggs" ]}) as [Hclear _].
    apply Hclear. intros e He. vm_compute in He. by simplify_eq.
  - destruct (run_test_postcondition
                (λ self, setitem (d1 self) "foo" (PStr "bar") ;;;
                         raise Samples.KeyboardInterrupt)
                {| d1 := Samples.v1; d2 := Samples.v2 |} (∅ : store))
      as [_ Hint].
    apply (Hint Samples.KeyboardInterrupt); vm_compute; reflexivity.
Defined.

(** ** The ways out of [run_closure] *)

Lemma check_and_cleanup_Ok_inv (rd : RedisDict) (s1 s3 : store) (st : pydict) :
  check_and_cleanup rd s1 = (Ok st, s3) →
  ∃ s2, to_dict rd s1 = (Ok st, s2)
        ∧ sorted (raw_keys rd s2) = sorted (keys st)
        ∧ s3 = (clear_test_namespace s2).2.
Proof.
  intros Hfin. destruct (to_dict rd s1) as [[st'|e] s2] eqn:Hst.
  - destruct (decide (sorted (raw_keys rd s2) = sorted (keys st')))
      as [Heq|Hne].
    + rewrite (check_and_cleanup_equal _ _ _ _ Hst Heq) in Hfin.
      simplify_eq. by exists s2.
    + by rewrite (check_and_cleanup_differ _ _ _ _ Hst Hne) in Hfin.
  - by rewrite (check_and_cleanup_raise _ _ _ _ Hst) in Hfin.
Qed.

(** X3: an exception of the [finally] block replaces the one of the script:
    when the script has raised and [to_dict] raises too, [run_closure]
    raises what [to_dict] raised; when [to_dict] returns and the key lists
    differ, it raises the [AssertionError]. In both cases nothing has been
    deleted. *)
Theorem finally_replaces_script_exception (script : closure) (rd : RedisDict)
    (s : store) (e : exn) :
  (script rd s).1 = Raise e →
  (∀ e' s2, to_dict rd (script rd s).2 = (Raise e', s2) →
     run_closure script rd s = (Raise e', s2))
  ∧ (∀ st s2, to_dict rd (script rd s).2 = (Ok st, s2) →
       ¬ raw_keys rd s2 ≡ₚ keys st →
       run_closure script rd s = (Raise (AssertionError "Lists differ"), s2)).
Proof.
  intros _. split.
  - intros e' s2 Hst. rewrite run_closure_blocks.
    by rewrite (check_and_cleanup_raise _ _ _ _ Hst).
  - intros st s2 Hst Hne. rewrite run_closure_blocks.
    rewrite (check_and_cleanup_differ _ _ _ _ Hst); [done|].
    intros Heq. by apply Hne, sorted_eq_Permutation.
Qed.

(** A [KeyError] of the script is replaced by the [ConnectionError] of
    [to_dict], and by the [AssertionError] for a state that misses a key. *)
Lemma finally_replaces_script_exception_witness :
  run_closure Samples.set_and_get_missing
    (MoreSamples.unreachable "rd_compare_v1") ∅
  = (Raise MoreSamples.ConnectionError, {[ "rd_compare_v1:foo" := "bar" ]})
  ∧ run_closure Samples.set_and_get_missing
      (Samples.forgetful "rd_compare_v1") ∅
    = (Raise (AssertionError "Lists differ"),
       {[ "rd_compare_v1:foo" := "bar" ]}).
Proof.
  split.
  - destruct (finally_replaces_script_exception Samples.set_and_get_missing
                (MoreSamples.unreachable "rd_compare_v1") (∅ : store)
                (Samples.KeyError 1 "baz")) as [Hraise _].
    + vm_compute. reflexivity.
    + apply Hraise. vm_compute. reflexivity.
  - destruct (finally_replaces_script_exception Samples.set_and_get_missing
                (Samples.forgetful "rd_compare_v1") (∅ : store)
                (Samples.KeyError 1 "baz")) as [_ Hdiffer].
    + vm_compute. reflexivity.
    + apply (Hdiffer []).
      * vm_compute. reflexivity.
      * intros Hperm. apply Permutation_length in Hperm.
        vm_compute in Hperm. discriminate Hperm.
Defined.

(** X4: an exception of the script that is not an [Exception] is not
    recorded: once the [finally] block has run to its end, [run_closure]
    raises that very exception, on a database without any key that starts
    with [rd_compare_]. *)
Theorem base_exception_passes_through (script : closure) (rd : RedisDict)
    (s s3 : store) (e : exn) (st : pydict) :
  (script rd s).1 = Raise e →
  exn_is_Exception e = false →
  check_and_cleanup rd (script rd s).2 = (Ok st, s3) →
  run_closure script rd s = (Raise e, s3)
  ∧ ∀ k, String.prefix "rd_compare_" k = true → s3 !! k = None.
Proof.
  intros Hraise Hbase Hfin. split.
  - rewrite run_closure_blocks, Hfin, run_script_value, Hraise, Hbase. done.
  - apply check_and_cleanup_Ok_inv in Hfin as (s2 & _ & _ & ->).
    intros k Hpre. by rewrite clear_test_namespace_lookup, Hpre.
Qed.

(** The script is interrupted after it has set a key. *)
Lemma base_exception_passes_through_witness :
  run_closure Samples.interrupted Samples.v1 ∅
  = (Raise Samples.KeyboardInterrupt, ∅)
  ∧ ∀ k, String.prefix "rd_compare_" k = true → (∅ : store) !! k = None.
Proof.
  apply (base_exception_passes_through Samples.interrupted Samples.v1 ∅ ∅
           Samples.KeyboardInterrupt [("foo", PStr "bar")]).
  - vm_compute. reflexivity.
  - reflexivity.
  - vm_compute. reflexivity.
Defined.

(** X6: [run_closure] itself touches no key outside [rd_compare_]: on every
    way out, such a key is as the script and [to_dict] left it. *)
Theorem run_closure_keeps_foreign_keys (script : closure) (rd : RedisDict)
    (s : store) (k : string) :
  String.prefix "rd_compare_" k = false →
  (run_closure script rd s).2 !! k = checked_store script rd s !! k.
Proof.
  intros Hpre. unfold checked_store. rewrite run_closure_blocks.
  destruct (to_dict rd (script rd s).2) as [[st|e0] s2] eqn:Hst.
  - destruct (decide (sorted (raw_keys rd s2) = sorted (keys st)))
      as [Heq|Hne].
    + rewrite (check_and_cleanup_equal _ _ _ _ Hst Heq).
      transitivity ((clear_test_namespace s2).2 !! k).
      * by destruct (run_script script rd s).1 as [[r exc]|e].
      * by rewrite clear_test_namespace_lookup, Hpre.
    + by rewrite (check_and_cleanup_differ _ _ _ _ Hst Hne).
  - by rewrite (check_and_cleanup_raise _ _ _ _ Hst).
Qed.

(** A key of another application survives a run. *)
Lemma run_closure_keeps_foreign_keys_witness :
  (run_closure set_key Samples.v1 {[ "session:42" := "alice" ]}).2
    !! "session:42" = Some "alice".
Proof.
  rewrite (run_closure_keeps_foreign_keys set_key Samples.v1
             {[ "session:42" := "alice" ]} "session:42" eq_refl).
  vm_compute. reflexivity.
Defined.

(** ** Joining and cutting keys *)

Lemma slice_from_append (a b : string) :
  slice_from (String.length a) (a +:+ b) = b.
Proof. induction a as [|c a IH]; [done | exact IH]. Qed.

Lemma slice_past_delimiter (a b : string) (delim : ascii) :
  slice_from (String.length a + 1) (a +:+ String delim b) = b.
Proof.
  induction a as [|c a IH]; [done|].
  change (String c a +:+ String delim b) with (String c (a +:+ String delim b)).
  exact IH.
Qed.

Lemma append_String_assoc (a b c : string) :
  (a +:+ b) +:+ c = a +:+ (b +:+ c).
Proof.
  induction a as [|x a IH]; [done|].
  change ((String x a +:+ b) +:+ c) with (String x ((a +:+ b) +:+ c)).
  by rewrite IH.
Qed.

(** X7: for a namespace without [:], cutting a key that was stored as the
    namespace, one delimiter character and the key proper gives back the key
    proper, whatever the delimiter is. *)
Theorem cut_gives_back_key (rd : RedisDict) (delim : ascii) (key : string) :
  contains ":" (namespace rd) = false →
  slice_from (to_rm rd) (namespace rd +:+ String delim key) = key.
Proof.
  intros Hc. unfold to_rm. rewrite split_without_sep by done.
  apply slice_past_delimiter.
Qed.

Lemma cut_gives_back_key_witness :
  slice_from (to_rm Samples.v1) "rd_compare_v1:foo" = "foo".
Proof.
  apply (cut_gives_back_key Samples.v1 ":" "foo"). reflexivity.
Defined.

Lemma length_append (a b : string) :
  String.length (a +:+ b) = String.length a + String.length b.
Proof.
  induction a as [|c a IH]; [done|].
  change (String c a +:+ b) with (String c (a +:+ b)). cbn. by rewrite IH.
Qed.

(** X8: for a namespace with a [:] in it, the cut stops after the first
    [:]: what follows it in the namespace stays in front of every raw key,
    so that the raw key of a key stored as the namespace, one delimiter
    character and the key proper is never the key proper. *)
Theorem cut_keeps_rest_of_namespace (rd : RedisDict) (a b : string) :
  namespace rd = a +:+ ":" +:+ b →
  contains ":" a = false →
  (∀ rest, slice_from (to_rm rd) (namespace rd +:+ rest) = b +:+ rest)
  ∧ (∀ delim key,
       slice_from (to_rm rd) (namespace rd +:+ String delim key) ≠ key).
Proof.
  intros Hns Hc.
  assert (∀ rest, slice_from (to_rm rd) (namespace rd +:+ rest) = b +:+ rest)
    as Hcut.
  { intros rest. unfold to_rm. rewrite Hns.
    change (a +:+ ":" +:+ b) with (a +:+ String ":" b).
    rewrite split_head by done. rewrite append_String_assoc.
    change (String ":" b +:+ rest) with (String ":" (b +:+ rest)).
    apply slice_past_delimiter. }
  split; [done|]. intros delim key Heq. rewrite Hcut in Heq.
  apply (f_equal String.length) in Heq. rewrite length_append in Heq.
  cbn in Heq. lia.
Qed.

Lemma cut_keeps_rest_of_namespace_witness :
  (∀ rest, slice_from (to_rm MoreSamples.nested) ("rd_compare:v1" +:+ rest)
           = "v1" +:+ rest)
  ∧ (∀ delim key,
       slice_from (to_rm MoreSamples.nested)
         ("rd_compare:v1" +:+ String delim key) ≠ key).
Proof.
  apply (cut_keeps_rest_of_namespace MoreSamples.nested "rd_compare" "v1");
    reflexivity.
Defined.

(** ** What the raw keys are *)

(** X9: for a namespace without pattern characters, the raw keys are the
    cut forms of exactly the keys of the database that start with the
    namespace, with or without a delimiter after it. *)
Theorem raw_keys_of_namespace (rd : RedisDict) (s : store) (x : string) :
  literal (namespace rd) = true →
  x ∈ raw_keys rd s
  ↔ ∃ key, is_Some (s !! key)
           ∧ String.prefix (namespace rd) key = true
           ∧ x = slice_from (to_rm rd) key.
Proof.
  intros Hlit. unfold raw_keys. rewrite list_elem_of_fmap. split.
  - intros (key & -> & Hin). apply elem_of_scan_iter in Hin as [Hm Hk].
    rewrite glob_match_literal_star in Hm by done. by exists key.
  - intros (key & Hk & Hpre & ->). exists key. split; [done|].
    apply elem_of_scan_iter. by rewrite glob_match_literal_star.
Qed.

(** A longer namespace that starts with the same characters is read too. *)
Lemma raw_keys_of_namespace_witness :
  ":foo" ∈ raw_keys Samples.v1 {[ "rd_compare_v10:foo" := "bar" ]}.
Proof.
  apply (raw_keys_of_namespace Samples.v1); [reflexivity|].
  exists "rd_compare_v10:foo". split; [|split; reflexivity].
  exists "bar". vm_compute. reflexivity.
Defined.

(** ** Two namespaces in one database *)

Lemma prefix_comparable (a b key : string) :
  String.prefix a key = true → String.prefix b key = true →
  String.prefix a b = true ∨ String.prefix b a = true.
Proof.
  revert a b. induction key as [|c key IH]; intros a b Ha Hb.
  - destruct a; [|done]. left. by destruct b.
  - destruct a as [|x a]; [left; by destruct b|].
    destruct b as [|y b]; [by right|]. cbn in *.
    destruct (ascii_dec x c) as [->|]; [|done].
    destruct (ascii_dec y c) as [->|]; [|done].
    destruct (ascii_dec c c); [|done]. by apply IH.
Qed.

Lemma prefix_trans (a b key : string) :
  String.prefix a b = true → String.prefix b key = true →
  String.prefix a key = true.
Proof.
  revert a b. induction key as [|c key IH]; intros a b Hab Hb.
  - destruct b; [|done]. by destruct a.
  - destruct a as [|x a]; [done|]. destruct b as [|y b]; [done|]. cbn in *.
    destruct (ascii_dec x y) as [->|]; [|done].
    destruct (ascii_dec y c) as [->|]; [|done]. by apply (IH a b).
Qed.

(** X10: two namespaces without pattern characters, neither of which
    starts with the other, share no key: a key enumerated for the one is
    never enumerated for the other. *)
Theorem namespaces_share_no_key (ns1 ns2 : string) (s : store) (key : string) :
  literal ns1 = true → literal ns2 = true →
  String.prefix ns1 ns2 = false → String.prefix ns2 ns1 = false →
  key ∈ scan_iter (ns1 +:+ "*") s → key ∉ scan_iter (ns2 +:+ "*") s.
Proof.
  intros Hl1 Hl2 H12 H21 Hin1 Hin2.
  apply elem_of_scan_iter in Hin1 as [Hm1 _].
  apply elem_of_scan_iter in Hin2 as [Hm2 _].
  rewrite glob_match_literal_star in Hm1, Hm2 by done.
  destruct (prefix_comparable _ _ _ Hm1 Hm2); congruence.
Qed.

Lemma namespaces_share_no_key_witness :
  "rd_compare_v1:foo"
  ∉ scan_iter "rd_compare_v2*" {[ "rd_compare_v1:foo" := "bar" ]}.
Proof.
  apply (namespaces_share_no_key "rd_compare_v1" "rd_compare_v2");
    try reflexivity.
  apply elem_of_scan_iter. split; [reflexivity|].
  exists "bar". vm_compute. reflexivity.
Defined.

(** X11: when one namespace starts with the other, every key of the longer
    one is enumerated for the shorter one as well. *)
Theorem longer_namespace_is_read_too (ns1 ns2 : string) (s : store)
    (key : string) :
  literal ns1 = true → literal ns2 = true →
  String.prefix ns1 ns2 = true →
  key ∈ scan_iter (ns2 +:+ "*") s → key ∈ scan_iter (ns1 +:+ "*") s.
Proof.
  intros Hl1 Hl2 H12 Hin. apply elem_of_scan_iter in Hin as [Hm Hk].
  apply elem_of_scan_iter. split; [|done].
  rewrite glob_match_literal_star in * by done. by eapply prefix_trans.
Qed.

Lemma longer_namespace_is_read_too_witness :
  "rd_compare_v10:foo"
  ∈ scan_iter "rd_compare_v1*" {[ "rd_compare_v10:foo" := "bar" ]}.
Proof.
  apply (longer_namespace_is_read_too "rd_compare_v1" "rd_compare_v10");
    try reflexivity.
  apply elem_of_scan_iter. split; [reflexivity|].
  exists "bar". vm_compute. reflexivity.
Defined.

(** ** [setUpClass] *)

(** X12: [setUpClass] returns the two instances on a database without any
    key that starts with [rd_compare_], other keys untouched; when the
    constructors keep the namespace they are given, both instances start
    with no raw key. *)
Theorem setUpClass_starts_clean (RedisDictV1 RedisDictV2 : string → RedisDict)
    (s : store) :
  (∀ ns, namespace (RedisDictV1 ns) = ns) →
  (∀ ns, namespace (RedisDictV2 ns) = ns) →
  ∃ cls s',
    setUpClass RedisDictV1 RedisDictV2 s = (Ok cls, s')
    ∧ d1 cls = RedisDictV1 "rd_compare_v1"
    ∧ d2 cls = RedisDictV2 "rd_compare_v2"
    ∧ (∀ k, s' !! k = if String.prefix "rd_compare_" k then None else s !! k)
    ∧ raw_keys (d1 cls) s' = []
    ∧ raw_keys (d2 cls) s' = [].
Proof.
  intros Hns1 Hns2.
  exists {| d1 := RedisDictV1 "rd_compare_v1";
            d2 := RedisDictV2 "rd_compare_v2" |}, (clear_test_namespace s).2.
  split; [|split; [reflexivity|split; [reflexivity|]]].
  { unfold setUpClass, bind. by rewrite (clear_test_namespace_eta s). }
  assert (∀ k, String.prefix "rd_compare_" k = true →
               (clear_test_namespace s).2 !! k = None) as Hgone.
  { intros k Hpre. by rewrite clear_test_namespace_lookup, Hpre. }
  split; [apply clear_test_namespace_lookup|].
  unfold raw_keys. cbn [d1 d2]. rewrite Hns1, Hns2.
  by rewrite !scan_iter_namespace_nil.
Qed.

Lemma setUpClass_starts_clean_witness :
  ∃ cls s',
    setUpClass MoreSamples.make_v1 MoreSamples.make_v2
      {[ "rd_compare_v1:stale" := "x"; "session:42" := "alice" ]}
    = (Ok cls, s')
    ∧ d1 cls = MoreSamples.make_v1 "rd_compare_v1"
    ∧ d2 cls = MoreSamples.make_v2 "rd_compare_v2"
    ∧ (∀ k, s' !! k
            = if String.prefix "rd_compare_" k then None
              else ({[ "rd_compare_v1:stale" := "x";
                       "session:42" := "alice" ]} : store) !! k)
    ∧ raw_keys (d1 cls) s' = []
    ∧ raw_keys (d2 cls) s' = [].
Proof.
  apply (setUpClass_starts_clean MoreSamples.make_v1 MoreSamples.make_v2);
    reflexivity.
Defined.

(** ** The consistency check, up to order *)

(** X13: once [to_dict] has returned, the [finally] block runs to its end
    exactly when the raw keys and the reported keys are the same up to
    their order, each as often as the other. *)
Theorem check_passes_up_to_order (rd : RedisDict) (s1 s2 : store)
    (st : pydict) :
  to_dict rd s1 = (Ok st, s2) →
  (∃ s3, check_and_cleanup rd s1 = (Ok st, s3)) ↔ raw_keys rd s2 ≡ₚ keys st.
Proof.
  intros Hst. split.
  - intros [s3 Hfin].
    apply check_and_cleanup_Ok_inv in Hfin as (s2' & Hst' & Heq & _).
    rewrite Hst in Hst'. simplify_eq. by apply sorted_eq_Permutation.
  - intros Hperm. eexists.
    by apply (check_and_cleanup_equal _ _ _ _ Hst), Permutation_sorted_eq.
Qed.

Lemma check_passes_up_to_order_witness :
  (∃ s3, check_and_cleanup Samples.v1
           {[ "rd_compare_v1:foo" := "bar"; "rd_compare_v1:john" := "doe" ]}
         = (Ok [("foo", PStr "bar"); ("john", PStr "doe")], s3))
  ↔ raw_keys Samples.v1
      {[ "rd_compare_v1:foo" := "bar"; "rd_compare_v1:john" := "doe" ]}
    ≡ₚ ["foo"; "john"].
Proof.
  apply (check_passes_up_to_order Samples.v1).
  vm_compute. reflexivity.
Defined.

(** ** The test methods *)

(** The four test methods modelled here are this one body. *)
Lemma tests_share_body :
  test_set_key = compare_outputs set_key
  ∧ test_set_and_get_key = compare_outputs set_and_get_key
  ∧ test_set_and_get_key_integer = compare_outputs set_and_get_key_integer
  ∧ test_get_keyerror = compare_outputs get_keyerror.
Proof. repeat split. Qed.

Lemma ddiff_nil (o1 o2 : outcome) : ddiff o1 o2 = [] ↔ records_agree o1 o2.
Proof.
  unfold ddiff, records_agree.
  by rewrite !app_nil, ddiff_value_nil, ddiff_exception_nil, ddiff_dict_nil.
Qed.

Lemma compare_outputs_records (script : closure) (self : TestCase)
    (s s1 s2 : store) (o1 o2 : outcome) :
  run_closure script (d1 self) s = (Ok o1, s1) →
  run_closure script (d2 self) s1 = (Ok o2, s2) →
  compare_outputs script self s
  = if decide (ddiff o1 o2 = []) then (Ok (), s2)
    else (Raise (AssertionError "diff is not {}"), s2).
Proof.
  intros H1 H2. unfold compare_outputs, bind. rewrite H1, H2.
  by case_decide.
Qed.

(** X14: a consistency check that fails in the run against the first
    version is reported like a difference between the versions: the test
    method raises the [AssertionError] of the check, the second version is
    not run, unittest reports a failure, and [tearDown] clears what the
    first run left. *)
Theorem failed_check_fails_test (script : closure) (self : TestCase)
    (s s2 : store) (st : pydict) :
  to_dict (d1 self) (script (d1 self) s).2 = (Ok st, s2) →
  ¬ raw_keys (d1 self) s2 ≡ₚ keys st →
  compare_outputs script self s = (Raise (AssertionError "Lists differ"), s2)
  ∧ run_test (compare_outputs script) self s
    = (Failed, (clear_test_namespace s2).2).
Proof.
  intros Hst Hne.
  assert (compare_outputs script self s
          = (Raise (AssertionError "Lists differ"), s2)) as Hfail.
  { unfold compare_outputs, bind. rewrite run_closure_blocks.
    rewrite (check_and_cleanup_differ _ _ _ _ Hst); [done|].
    intros Heq. by apply Hne, sorted_eq_Permutation. }
  split; [done|]. unfold run_test, tearDown. rewrite Hfail. cbn.
  by rewrite (clear_test_namespace_eta s2).
Qed.

(** [test_set_key] with a first version whose [to_dict] reports nothing. *)
Lemma failed_check_fails_test_witness :
  let self := {| d1 := Samples.forgetful "rd_compare_v1"; d2 := Samples.v2 |} in
  test_set_key self ∅
  = (Raise (AssertionError "Lists differ"), {[ "rd_compare_v1:foo" := "bar" ]})
  ∧ run_test test_set_key self ∅
    = (Failed, (clear_test_namespace {[ "rd_compare_v1:foo" := "bar" ]}).2).
Proof.
  apply (failed_check_fails_test set_key
           {| d1 := Samples.forgetful "rd_compare_v1"; d2 := Samples.v2 |}
           ∅ {[ "rd_compare_v1:foo" := "bar" ]} []).
  - vm_compute. reflexivity.
  - intros Hperm. apply Permutation_length in Hperm.
    vm_compute in Hperm. discriminate Hperm.
Defined.

(** X15: when both runs return a record, the test method returns exactly
    when the two records agree (equal results, equal states, exceptions of
    the same class with equal messages and instance dictionaries, or none
    on both sides), and raises the [AssertionError] otherwise. *)
Theorem test_passes_iff_records_agree (script : closure) (self : TestCase)
    (s s1 s2 : store) (o1 o2 : outcome) :
  run_closure script (d1 self) s = (Ok o1, s1) →
  run_closure script (d2 self) s1 = (Ok o2, s2) →
  (compare_outputs script self s = (Ok (), s2) ↔ records_agree o1 o2)
  ∧ (¬ records_agree o1 o2 →
       compare_outputs script self s
       = (Raise (AssertionError "diff is not {}"), s2)).
Proof.
  intros H1 H2. rewrite (compare_outputs_records _ _ _ _ _ _ _ H1 H2).
  rewrite <- ddiff_nil. case_decide as Hd; split; done.
Qed.

(** [test_get_keyerror] with a first version that raises for the missing
    key and a second one that returns [None]. *)
Lemma test_passes_iff_records_agree_witness :
  let self := {| d1 := Samples.v1;
                 d2 := MoreSamples.lenient "rd_compare_v2" |} in
  let o1 := {| result := PNone;
               exception := Some {| object := Samples.KeyError 1 "foo";
                                    message := PStr "foo" |};
               state := [] |} in
  let o2 := {| result := PNone; exception := None; state := [] |} in
  (compare_outputs get_keyerror self ∅ = (Ok (), ∅) ↔ records_agree o1 o2)
  ∧ (¬ records_agree o1 o2 →
       compare_outputs get_keyerror self ∅
       = (Raise (AssertionError "diff is not {}"), ∅)).
Proof.
  apply (test_passes_iff_records_agree get_keyerror
           {| d1 := Samples.v1; d2 := MoreSamples.lenient "rd_compare_v2" |}
           ∅ ∅ ∅); vm_compute; reflexivity.
Defined.

(** X16: when one version raises where the other returns, the test method
    fails: it raises the [AssertionError], and unittest reports a
    failure. *)
Theorem raising_against_returning_fails (script : closure) (self : TestCase)
    (s s1 s2 : store) (o1 o2 : outcome) :
  run_closure script (d1 self) s = (Ok o1, s1) →
  run_closure script (d2 self) s1 = (Ok o2, s2) →
  (is_Some (exception o1) ∧ exception o2 = None)
  ∨ (exception o1 = None ∧ is_Some (exception o2)) →
  compare_outputs script self s = (Raise (AssertionError "diff is not {}"), s2)
  ∧ (run_test (compare_outputs script) self s).1 = Failed.
Proof.
  intros H1 H2 Hone.
  assert (compare_outputs script self s
          = (Raise (AssertionError "diff is not {}"), s2)) as Hfail.
  { rewrite (compare_outputs_records _ _ _ _ _ _ _ H1 H2).
    rewrite decide_False; [done|]. rewrite ddiff_nil.
    intros (_ & Hagree & _).
    destruct Hone as [[[c Hc] Hn]|[Hn [c Hc]]]; by rewrite Hc, Hn in Hagree. }
  split; [done|]. unfold run_test. rewrite Hfail.
  by destruct (tearDown self s2).
Qed.

(** The first version raises [KeyError] for the missing key, the second
    one returns [None]. *)
Lemma raising_against_returning_fails_witness :
  let self := {| d1 := Samples.v1;
                 d2 := MoreSamples.lenient "rd_compare_v2" |} in
  test_get_keyerror self ∅ = (Raise (AssertionError "diff is not {}"), ∅)
  ∧ (run_test test_get_keyerror self ∅).1 = Failed.
Proof.
  apply (raising_against_returning_fails get_keyerror
           {| d1 := Samples.v1; d2 := MoreSamples.lenient "rd_compare_v2" |}
           ∅ ∅ ∅
           {| result := PNone;
              exception := Some {| object := Samples.KeyError 1 "foo";
                                   message := PStr "foo" |};
              state := [] |}
           {| result := PNone; exception := None; state := [] |}).
  - vm_compute. reflexivity.
  - vm_compute. reflexivity.
  - left. split; [by eexists | reflexivity].
Defined.

(** ** A record against itself *)

Lemma dict_get_unique (m : pydict) (k : string) (v : pyval) :
  NoDup (keys m) → (k, v) ∈ m → dict_get k m = Some v.
Proof.
  induction m as [|[k' v'] m IH]; intros Hnd Hin.
  - by apply elem_of_nil in Hin.
  - cbn in Hnd. apply NoDup_cons in Hnd as [Hnotin Hnd].
    apply elem_of_cons in Hin as [Heq|Hin]; cbn.
    + simplify_eq. by rewrite decide_True.
    + rewrite decide_False; [by apply IH|]. intros ->. apply Hnotin.
      unfold keys. apply list_elem_of_fmap. by exists (k, v).
Qed.

Lemma list_eqb_refl (eqb : pyval → pyval → bool) (l : list pyval) :
  Forall (λ x, eqb x x = true) l → list_eqb eqb l l = true.
Proof. induction 1 as [|x l Hx _ IH]; [done|]. cbn. by rewrite Hx, IH. Qed.

Lemma dict_eqb_refl (eqb : pyval → pyval → bool) (m : pydict) :
  NoDup (keys m) →
  Forall (λ item : string * pyval, eqb item.2 item.2 = true) m →
  dict_eqb eqb m m = true.
Proof.
  intros Hnd Hall. unfold dict_eqb. apply andb_true_iff. split.
  - apply forallb_forall. intros [k v] Hin. apply list_elem_of_In in Hin.
    cbn. rewrite (dict_get_unique m k v Hnd Hin).
    rewrite Forall_forall in Hall. apply (Hall (k, v) Hin).
  - apply forallb_forall. intros k Hin. apply list_elem_of_In in Hin.
    by apply bool_decide_eq_true.
Qed.

Lemma py_eqb_refl (v : pyval) : unique_keys v = true → py_eqb v v = true.
Proof.
  induction v as [|z|x|l IH|m IH] using pyval_ind; cbn; intros Hu; try done.
  - by apply bool_decide_eq_true.
  - by apply bool_decide_eq_true.
  - apply list_eqb_refl. rewrite forallb_forall in Hu.
    rewrite Forall_forall in IH |- *. intros x Hin.
    apply IH; [done|]. by apply Hu, list_elem_of_In.
  - apply andb_true_iff in Hu as [Hnd Hu].
    apply bool_decide_eq_true in Hnd. rewrite forallb_forall in Hu.
    apply dict_eqb_refl; [done|].
    rewrite Forall_forall in IH |- *. intros item Hin.
    apply IH; [done|]. by apply Hu, list_elem_of_In.
Qed.

Lemma records_agree_refl (o : outcome) :
  unique_keys_record o → records_agree o o.
Proof.
  intros (Hres & Hst & Hexc). split; [by apply py_eqb_refl|]. split.
  - destruct (exception o) as [c|]; [|done]. destruct Hexc as [Hm Hd].
    cbn. unfold kind_and_text_match.
    split; [split; [done | by apply py_eqb_refl]|].
    by apply (py_eqb_refl (PDict _)).
  - by apply (py_eqb_refl (PDict _)).
Qed.

(** X17: when both versions give the same record, whose dicts hold each key
    once, the diff is empty and the test method returns. *)
Theorem equal_records_pass (script : closure) (self : TestCase)
    (s s1 s2 : store) (o : outcome) :
  run_closure script (d1 self) s = (Ok o, s1) →
  run_closure script (d2 self) s1 = (Ok o, s2) →
  unique_keys_record o →
  ddiff o o = [] ∧ compare_outputs script self s = (Ok (), s2).
Proof.
  intros H1 H2 Hu.
  assert (ddiff o o = []) as Hd by by apply ddiff_nil, records_agree_refl.
  split; [done|]. rewrite (compare_outputs_records _ _ _ _ _ _ _ H1 H2).
  by rewrite decide_True.
Qed.

(** [test_set_and_get_key] on the two sample versions. *)
Lemma equal_records_pass_witness :
  let o := {| result := PStr "bar"; exception := None;
              state := [("foo", PStr "bar")] |} in
  ddiff o o = []
  ∧ test_set_and_get_key {| d1 := Samples.v1; d2 := Samples.v2 |} ∅
    = (Ok (), ∅).
Proof.
  apply (equal_records_pass set_and_get_key
           {| d1 := Samples.v1; d2 := Samples.v2 |} ∅ ∅ ∅).
  - vm_compute. reflexivity.
  - vm_compute. reflexivity.
  - split; [reflexivity|]. split; [|done].
    cbn. apply andb_true_iff. split; [|reflexivity].
    apply bool_decide_eq_true. apply NoDup_singleton.
Defined.
